(** * ODrive firmware, CAN interface ([Firmware/communication/interface_can.cpp])

    A shallow embedding of [ODriveCAN]: the transmit and receive wrappers
    ([write], [read], [available]), the bit-timing and node-ID setters
    ([set_baud_rate], [set_node_id]), the bring-up sequence
    ([start_can_server]) and the server loop ([can_server_thread]).

    Integers are [Z] with the wrap-around of their C type written out.  The
    object is threaded through a small state monad.  The STM32 HAL and the
    RTOS are outside the repository: the peripheral is modelled by the part
    of its state the driver can observe (mailboxes, receive FIFOs, filter
    banks, interrupt enables), and values that only the environment decides
    (the tick counter, HAL status codes, the content of uninitialised
    locals) are explicit inputs. *)

From Stdlib Require Import ZArith List Bool Lia.
Import ListNotations.
Open Scope Z_scope.

(** ** Fixed-width unsigned integers *)

Definition u8 (x : Z) : Z := x mod 2 ^ 8.
Definition u32 (x : Z) : Z := x mod 2 ^ 32.

Definition is_u8 (x : Z) : Prop := 0 <= x < 2 ^ 8.
Definition is_u32 (x : Z) : Prop := 0 <= x < 2 ^ 32.

(** ** The HAL side: constants, descriptors and the peripheral *)

Module HAL.

Inductive HAL_StatusTypeDef := HAL_OK | HAL_ERROR | HAL_BUSY | HAL_TIMEOUT.

Definition status_eqb (a b : HAL_StatusTypeDef) : bool :=
  match a, b with
  | HAL_OK, HAL_OK | HAL_ERROR, HAL_ERROR
  | HAL_BUSY, HAL_BUSY | HAL_TIMEOUT, HAL_TIMEOUT => true
  | _, _ => false
  end.

Inductive HAL_CAN_StateTypeDef :=
| HAL_CAN_STATE_RESET
| HAL_CAN_STATE_READY
| HAL_CAN_STATE_LISTENING.

Definition CAN_ID_STD : Z := 0.
Definition CAN_ID_EXT : Z := 4.
Definition CAN_RTR_DATA : Z := 0.
Definition DISABLE : Z := 0.
Definition ENABLE : Z := 1.
Definition CAN_RX_FIFO0 : Z := 0.
Definition CAN_RX_FIFO1 : Z := 1.
Definition CAN_FILTERMODE_IDMASK : Z := 0.
Definition CAN_FILTERSCALE_32BIT : Z := 1.
Definition CAN_IT_RX_FIFO0_MSG_PENDING : Z := 0x02.
Definition CAN_IT_RX_FIFO1_MSG_PENDING : Z := 0x10.

Record CAN_TxHeaderTypeDef := {
  tx_StdId : Z;
  tx_ExtId : Z;
  tx_IDE : Z;
  tx_RTR : Z;
  tx_DLC : Z;
  tx_TransmitGlobalTime : Z
}.

Record CAN_RxHeaderTypeDef := {
  rx_StdId : Z;
  rx_ExtId : Z;
  rx_IDE : Z;
  rx_RTR : Z;
  rx_DLC : Z
}.

Record CAN_FilterTypeDef := {
  FilterIdHigh : Z;
  FilterIdLow : Z;
  FilterMaskIdHigh : Z;
  FilterMaskIdLow : Z;
  FilterFIFOAssignment : Z;
  FilterBank : Z;
  FilterMode : Z;
  FilterScale : Z;
  FilterActivation : Z
}.

(** What the driver sees of one bxCAN instance.  [Prescaler] is
    [Init.Prescaler]; a transmit mailbox is [None] when empty. *)
Record CAN_HandleTypeDef := {
  Prescaler : Z;
  State : HAL_CAN_StateTypeDef;
  filters : list CAN_FilterTypeDef;
  mailboxes : list (option (CAN_TxHeaderTypeDef * list Z));
  fifo0 : list (CAN_RxHeaderTypeDef * list Z);
  fifo1 : list (CAN_RxHeaderTypeDef * list Z);
  IER : Z
}.

Definition with_Prescaler (p : Z) (h : CAN_HandleTypeDef) :=
  {| Prescaler := p; State := State h; filters := filters h;
     mailboxes := mailboxes h; fifo0 := fifo0 h; fifo1 := fifo1 h;
     IER := IER h |}.

Definition with_State (s : HAL_CAN_StateTypeDef) (h : CAN_HandleTypeDef) :=
  {| Prescaler := Prescaler h; State := s; filters := filters h;
     mailboxes := mailboxes h; fifo0 := fifo0 h; fifo1 := fifo1 h;
     IER := IER h |}.

Definition with_filters (f : list CAN_FilterTypeDef) (h : CAN_HandleTypeDef) :=
  {| Prescaler := Prescaler h; State := State h; filters := f;
     mailboxes := mailboxes h; fifo0 := fifo0 h; fifo1 := fifo1 h;
     IER := IER h |}.

Definition with_mailboxes (m : list (option (CAN_TxHeaderTypeDef * list Z)))
           (h : CAN_HandleTypeDef) :=
  {| Prescaler := Prescaler h; State := State h; filters := filters h;
     mailboxes := m; fifo0 := fifo0 h; fifo1 := fifo1 h; IER := IER h |}.

Definition with_fifo0 (q : list (CAN_RxHeaderTypeDef * list Z))
           (h : CAN_HandleTypeDef) :=
  {| Prescaler := Prescaler h; State := State h; filters := filters h;
     mailboxes := mailboxes h; fifo0 := q; fifo1 := fifo1 h; IER := IER h |}.

Definition with_fifo1 (q : list (CAN_RxHeaderTypeDef * list Z))
           (h : CAN_HandleTypeDef) :=
  {| Prescaler := Prescaler h; State := State h; filters := filters h;
     mailboxes := mailboxes h; fifo0 := fifo0 h; fifo1 := q; IER := IER h |}.

Definition with_IER (e : Z) (h : CAN_HandleTypeDef) :=
  {| Prescaler := Prescaler h; State := State h; filters := filters h;
     mailboxes := mailboxes h; fifo0 := fifo0 h; fifo1 := fifo1 h;
     IER := e |}.

(** The HAL answers queries and accepts frames only once initialised. *)
Definition operational (h : CAN_HandleTypeDef) : bool :=
  match State h with
  | HAL_CAN_STATE_READY | HAL_CAN_STATE_LISTENING => true
  | HAL_CAN_STATE_RESET => false
  end.

Fixpoint count_empty {A} (l : list (option A)) : nat :=
  match l with
  | [] => O
  | None :: l' => S (count_empty l')
  | Some _ :: l' => count_empty l'
  end.

Fixpoint first_empty {A} (l : list (option A)) : option nat :=
  match l with
  | [] => None
  | None :: _ => Some O
  | Some _ :: l' => option_map S (first_empty l')
  end.

Fixpoint store {A} (n : nat) (x : A) (l : list (option A)) : list (option A) :=
  match l, n with
  | [], _ => []
  | _ :: l', O => Some x :: l'
  | y :: l', S n' => y :: store n' x l'
  end.

Definition HAL_CAN_GetTxMailboxesFreeLevel (h : CAN_HandleTypeDef) : Z :=
  if operational h then Z.of_nat (count_empty (mailboxes h)) else 0.

(** Stores the frame in the lowest empty mailbox and reports it through
    [pTxMailbox] as a one-hot code; on failure [pTxMailbox] is not
    written. *)
Definition HAL_CAN_AddTxMessage (h : CAN_HandleTypeDef)
           (pHeader : CAN_TxHeaderTypeDef) (aData : list Z) (pTxMailbox : Z)
  : HAL_StatusTypeDef * Z * CAN_HandleTypeDef :=
  if operational h then
    match first_empty (mailboxes h) with
    | Some i =>
        (HAL_OK, Z.shiftl 1 (Z.of_nat i),
         with_mailboxes (store i (pHeader, aData) (mailboxes h)) h)
    | None => (HAL_ERROR, pTxMailbox, h)
    end
  else (HAL_ERROR, pTxMailbox, h).

Definition HAL_CAN_GetRxFifoFillLevel (h : CAN_HandleTypeDef) (RxFifo : Z) : Z :=
  if operational h then
    if RxFifo =? CAN_RX_FIFO0 then Z.of_nat (length (fifo0 h))
    else Z.of_nat (length (fifo1 h))
  else 0.

(** Pops the oldest frame of the FIFO into [pHeader] and [aData]; on
    failure neither is written. *)
Definition HAL_CAN_GetRxMessage (h : CAN_HandleTypeDef) (RxFifo : Z)
           (pHeader : CAN_RxHeaderTypeDef) (aData : list Z)
  : HAL_StatusTypeDef * CAN_RxHeaderTypeDef * list Z * CAN_HandleTypeDef :=
  if operational h then
    if RxFifo =? CAN_RX_FIFO0 then
      match fifo0 h with
      | (hd, d) :: q => (HAL_OK, hd, d, with_fifo0 q h)
      | [] => (HAL_ERROR, pHeader, aData, h)
      end
    else
      match fifo1 h with
      | (hd, d) :: q => (HAL_OK, hd, d, with_fifo1 q h)
      | [] => (HAL_ERROR, pHeader, aData, h)
      end
  else (HAL_ERROR, pHeader, aData, h).

(** Acceptance test of a filter bank in 32-bit identifier-mask mode: the
    frame's identifier register image [bits] passes when it agrees with
    the filter identifier on every bit the mask selects. *)
Definition filter_id (f : CAN_FilterTypeDef) : Z :=
  Z.lor (Z.shiftl (FilterIdHigh f) 16) (FilterIdLow f).

Definition filter_mask (f : CAN_FilterTypeDef) : Z :=
  Z.lor (Z.shiftl (FilterMaskIdHigh f) 16) (FilterMaskIdLow f).

Definition filter_accepts (f : CAN_FilterTypeDef) (bits : Z) : bool :=
  (FilterActivation f =? ENABLE)
  && (Z.land (Z.lxor bits (filter_id f)) (filter_mask f) =? 0).

(** Register image of a standard (11-bit) data-frame identifier. *)
Definition std_bits (id : Z) : Z := Z.shiftl id 21.

(** The FIFO a frame is delivered to: that of the first bank accepting
    it; [None] when every bank rejects the frame. *)
Fixpoint route (fs : list CAN_FilterTypeDef) (bits : Z) : option Z :=
  match fs with
  | [] => None
  | f :: fs' =>
      if filter_accepts f bits then Some (FilterFIFOAssignment f)
      else route fs' bits
  end.

(** The bring-up calls.  Whether the peripheral acknowledges a request in
    time is decided by the hardware: the status each call yields is an
    input, and the call takes effect only when that status is [HAL_OK].
    What the HAL records about a refused call (its error code and error
    state) is not part of this model. *)
Definition HAL_CAN_Init (status : HAL_StatusTypeDef) (h : CAN_HandleTypeDef)
  : HAL_StatusTypeDef * CAN_HandleTypeDef :=
  (status,
   if status_eqb status HAL_OK then with_State HAL_CAN_STATE_READY h else h).

Definition HAL_CAN_ConfigFilter (status : HAL_StatusTypeDef)
           (h : CAN_HandleTypeDef) (sFilterConfig : CAN_FilterTypeDef)
  : HAL_StatusTypeDef * CAN_HandleTypeDef :=
  (status,
   if status_eqb status HAL_OK then
     with_filters
       (sFilterConfig
          :: filter (fun f => negb (FilterBank f =? FilterBank sFilterConfig))
               (filters h)) h
   else h).

Definition HAL_CAN_Start (status : HAL_StatusTypeDef) (h : CAN_HandleTypeDef)
  : HAL_StatusTypeDef * CAN_HandleTypeDef :=
  (status,
   if status_eqb status HAL_OK then with_State HAL_CAN_STATE_LISTENING h
   else h).

Definition HAL_CAN_ActivateNotification (status : HAL_StatusTypeDef)
           (h : CAN_HandleTypeDef) (ActiveITs : Z)
  : HAL_StatusTypeDef * CAN_HandleTypeDef :=
  (status,
   if status_eqb status HAL_OK then with_IER (Z.lor (IER h) ActiveITs) h
   else h).

(** Called from interrupt context; its status is discarded there. *)
Definition HAL_CAN_DeactivateNotification (h : CAN_HandleTypeDef)
           (InactiveITs : Z) : HAL_StatusTypeDef * CAN_HandleTypeDef :=
  if operational h then (HAL_OK, with_IER (Z.ldiff (IER h) InactiveITs) h)
  else (HAL_ERROR, h).

(** The bus side of the peripheral: a received frame is appended to the
    FIFO its filter match selects, unless that FIFO already holds
    [FIFO_DEPTH] frames; a completed (or aborted) transmission empties
    its mailbox. *)
Definition FIFO_DEPTH : nat := 3.

Definition enqueue {A} (x : A) (q : list A) : list A :=
  if (length q <? FIFO_DEPTH)%nat then q ++ [x] else q.

Definition rx_bits (hd : CAN_RxHeaderTypeDef) : Z :=
  if rx_IDE hd =? CAN_ID_STD then std_bits (rx_StdId hd)
  else Z.lor (Z.shiftl (rx_ExtId hd) 3) CAN_ID_EXT.

Definition bus_receive (hd : CAN_RxHeaderTypeDef) (data : list Z)
           (h : CAN_HandleTypeDef) : CAN_HandleTypeDef :=
  match route (filters h) (rx_bits hd) with
  | Some f =>
      if f =? CAN_RX_FIFO0 then with_fifo0 (enqueue (hd, data) (fifo0 h)) h
      else with_fifo1 (enqueue (hd, data) (fifo1 h)) h
  | None => h
  end.

Fixpoint release {A} (n : nat) (l : list (option A)) : list (option A) :=
  match l, n with
  | [], _ => []
  | _ :: l', O => None :: l'
  | y :: l', S n' => y :: release n' l'
  end.

Definition bus_tx_complete (n : nat) (h : CAN_HandleTypeDef)
  : CAN_HandleTypeDef :=
  with_mailboxes (release n (mailboxes h)) h.

End HAL.
Import HAL.

(** ** Declarations of [interface_can.hpp] *)

Record CAN_message_t := {
  id : Z;
  isExt : bool;
  len : Z;
  buf : list Z
}.

Definition with_id (i : Z) (m : CAN_message_t) : CAN_message_t :=
  {| id := i; isExt := isExt m; len := len m; buf := buf m |}.

Record Config_t := {
  baud : Z;
  node_id : Z
}.

(** Modelled from the spec: the enumerators [CAN_BAUD_125K] ...
    [CAN_BAUD_1000K] are declared in [interface_can.hpp], which is not among
    the sources; they are the four standard bus speeds in bit/s. *)
Definition CAN_BAUD_125K : Z := 125000.
Definition CAN_BAUD_250K : Z := 250000.
Definition CAN_BAUD_500K : Z := 500000.
Definition CAN_BAUD_1000K : Z := 1000000.

(** Clock of the CAN peripheral, in Hz (comment above [set_baud_rate]). *)
Definition CAN_CLOCK : Z := 42000000.

(** ** The object and its trace *)

(** What the server thread did, in order: the ghost record against which
    the loop's behaviour is stated. *)
Inductive event :=
| EvSemaphoreWait (millisec : Z)
| EvForward (rxmsg : CAN_message_t) (queued : bool)
| EvHeartbeat (txmsg : CAN_message_t) (queued : bool)
| EvActivateNotification (its : Z)
| EvInit (status : HAL_StatusTypeDef)
| EvConfigFilter (filter : CAN_FilterTypeDef) (status : HAL_StatusTypeDef)
| EvStart (status : HAL_StatusTypeDef)
| EvThreadCreate
| EvSemaphoreRelease.

Record ODriveCAN := {
  handle_ : CAN_HandleTypeDef;
  config_ : Config_t;
  thread_id_valid_ : bool;
  trace_ : list event
}.

Definition with_handle (h : CAN_HandleTypeDef) (o : ODriveCAN) : ODriveCAN :=
  {| handle_ := h; config_ := config_ o;
     thread_id_valid_ := thread_id_valid_ o; trace_ := trace_ o |}.

Definition with_config (c : Config_t) (o : ODriveCAN) : ODriveCAN :=
  {| handle_ := handle_ o; config_ := c;
     thread_id_valid_ := thread_id_valid_ o; trace_ := trace_ o |}.

Definition with_thread_id_valid (b : bool) (o : ODriveCAN) : ODriveCAN :=
  {| handle_ := handle_ o; config_ := config_ o;
     thread_id_valid_ := b; trace_ := trace_ o |}.

Definition emit (e : event) (o : ODriveCAN) : ODriveCAN :=
  {| handle_ := handle_ o; config_ := config_ o;
     thread_id_valid_ := thread_id_valid_ o; trace_ := trace_ o ++ [e] |}.

(** ** Member functions as state transformers *)

Definition M (A : Type) : Type := ODriveCAN -> A * ODriveCAN.

Definition ret {A} (a : A) : M A := fun o => (a, o).

Definition bind {A B} (m : M A) (k : A -> M B) : M B :=
  fun o => let (a, o') := m o in k a o'.

Definition get : M ODriveCAN := fun o => (o, o).

Definition modify (f : ODriveCAN -> ODriveCAN) : M unit := fun o => (tt, f o).

Declare Scope can_scope.
Delimit Scope can_scope with can.
Notation "x <- m ;; k" := (bind m (fun x => k))
  (at level 61, m at next level, right associativity) : can_scope.
Notation "m ;;; k" := (bind m (fun _ => k))
  (at level 61, right associativity) : can_scope.
Open Scope can_scope.

(** The transmit header [write] fills in from the message. *)
Definition tx_header (txmsg : CAN_message_t) : CAN_TxHeaderTypeDef :=
  {| tx_StdId := id txmsg;
     tx_ExtId := id txmsg;
     tx_IDE := if isExt txmsg then CAN_ID_EXT else CAN_ID_STD;
     tx_RTR := CAN_RTR_DATA;
     tx_DLC := len txmsg;
     tx_TransmitGlobalTime := DISABLE |}.

(** [uint32_t ODriveCAN::write(CAN_message_t &txmsg)].  [retTxMailbox] has
    no initialiser: [uninit] is whatever its stack slot holds on entry. *)
Definition write (uninit : Z) (txmsg : CAN_message_t) : M Z :=
  fun o =>
    let header := tx_header txmsg in
    let retTxMailbox := uninit in
    if 0 <? HAL_CAN_GetTxMailboxesFreeLevel (handle_ o) then
      let '(_, retTxMailbox', h') :=
        HAL_CAN_AddTxMessage (handle_ o) header (buf txmsg) retTxMailbox in
      (retTxMailbox', with_handle h' o)
    else (retTxMailbox, o).

(** [uint32_t ODriveCAN::available()] *)
Definition available : M Z :=
  fun o =>
    (u32 (HAL_CAN_GetRxFifoFillLevel (handle_ o) CAN_RX_FIFO0
          + HAL_CAN_GetRxFifoFillLevel (handle_ o) CAN_RX_FIFO1), o).

(** [bool ODriveCAN::read(CAN_message_t &rxmsg)].  [header] has no
    initialiser either: [uninit] stands for its content on entry. *)
Definition read (uninit : CAN_RxHeaderTypeDef) (rxmsg : CAN_message_t)
  : M (bool * CAN_message_t) :=
  fun o =>
    let '(validRead, header, data, h') :=
      if 0 <? HAL_CAN_GetRxFifoFillLevel (handle_ o) CAN_RX_FIFO0 then
        let '(_, hd, d, h') :=
          HAL_CAN_GetRxMessage (handle_ o) CAN_RX_FIFO0 uninit (buf rxmsg) in
        (true, hd, d, h')
      else if 0 <? HAL_CAN_GetRxFifoFillLevel (handle_ o) CAN_RX_FIFO1 then
        let '(_, hd, d, h') :=
          HAL_CAN_GetRxMessage (handle_ o) CAN_RX_FIFO1 uninit (buf rxmsg) in
        (true, hd, d, h')
      else (false, uninit, buf rxmsg, handle_ o) in
    let ext := negb (rx_IDE header =? 0) in
    (validRead,
     {| id := if ext then rx_ExtId header else rx_StdId header;
        isExt := ext;
        len := u8 (rx_DLC header);
        buf := data |},
     with_handle h' o).

(** [void ODriveCAN::set_baud_rate(uint32_t baudRate)] *)
Definition set_baud_rate (baudRate : Z) : M unit :=
  fun o =>
    let set p :=
      (tt, with_config {| baud := baudRate; node_id := node_id (config_ o) |}
             (with_handle (with_Prescaler p (handle_ o)) o)) in
    if baudRate =? CAN_BAUD_125K then set 16
    else if baudRate =? CAN_BAUD_250K then set 8
    else if baudRate =? CAN_BAUD_500K then set 4
    else if baudRate =? CAN_BAUD_1000K then set 2
    else (tt, o).

(** [void ODriveCAN::set_node_id(uint8_t nodeID)] *)
Definition set_node_id (nodeID : Z) : M unit :=
  fun o =>
    (tt, with_config {| baud := baud (config_ o); node_id := u8 nodeID |} o).

(** The interrupt callbacks.  Completion and abort of a transmission are
    not acted upon; a frame pending in FIFO 0 masks its own notification
    and wakes the server thread. *)
Definition HAL_CAN_TxMailbox0CompleteCallback : M unit := ret tt.
Definition HAL_CAN_TxMailbox1CompleteCallback : M unit := ret tt.
Definition HAL_CAN_TxMailbox2CompleteCallback : M unit := ret tt.
Definition HAL_CAN_TxMailbox0AbortCallback : M unit := ret tt.
Definition HAL_CAN_TxMailbox1AbortCallback : M unit := ret tt.
Definition HAL_CAN_TxMailbox2AbortCallback : M unit := ret tt.

Definition HAL_CAN_RxFifo0MsgPendingCallback : M unit :=
  modify (fun o =>
            with_handle
              (snd (HAL_CAN_DeactivateNotification (handle_ o)
                      CAN_IT_RX_FIFO0_MSG_PENDING)) o) ;;;
  modify (emit EvSemaphoreRelease).

Definition HAL_CAN_RxFifo1MsgPendingCallback : M unit := ret tt.

(** A frame arrives from the bus: the peripheral queues it, and the
    interrupt handler runs the FIFO 0 callback when that notification is
    enabled and FIFO 0 holds a frame. *)
Definition on_receive (hd : CAN_RxHeaderTypeDef) (data : list Z) : M unit :=
  modify (fun o => with_handle (bus_receive hd data (handle_ o)) o) ;;;
  o <- get ;;
  if negb (Z.land (IER (handle_ o)) CAN_IT_RX_FIFO0_MSG_PENDING =? 0)
     && negb (length (fifo0 (handle_ o)) =? 0)%nat
  then HAL_CAN_RxFifo0MsgPendingCallback
  else ret tt.

(** A transmission completes: the peripheral empties the mailbox and the
    handler runs that mailbox's completion callback. *)
Definition on_tx_complete (mailbox : nat) : M unit :=
  modify (fun o => with_handle (bus_tx_complete mailbox (handle_ o)) o) ;;;
  match mailbox with
  | O => HAL_CAN_TxMailbox0CompleteCallback
  | S O => HAL_CAN_TxMailbox1CompleteCallback
  | _ => HAL_CAN_TxMailbox2CompleteCallback
  end.

(** [bool ODriveCAN::start_can_server()].  [results] holds the status each
    HAL call yields if it is reached. *)
Record HalResults := {
  r_Init : HAL_StatusTypeDef;
  r_ConfigFilter : HAL_StatusTypeDef;
  r_Start : HAL_StatusTypeDef;
  r_ActivateNotification : HAL_StatusTypeDef
}.

Definition hal (call : CAN_HandleTypeDef -> HAL_StatusTypeDef * CAN_HandleTypeDef)
           (ev : HAL_StatusTypeDef -> event) : M HAL_StatusTypeDef :=
  fun o =>
    let (status, h') := call (handle_ o) in
    (status, emit (ev status) (with_handle h' o)).

Definition server_filter : CAN_FilterTypeDef :=
  {| FilterActivation := ENABLE;
     FilterBank := 0;
     FilterFIFOAssignment := CAN_RX_FIFO0;
     FilterIdHigh := 0x0000;
     FilterIdLow := 0x0000;
     FilterMaskIdHigh := 0x0000;
     FilterMaskIdLow := 0x0000;
     FilterMode := CAN_FILTERMODE_IDMASK;
     FilterScale := CAN_FILTERSCALE_32BIT |}.

Definition start_can_server (results : HalResults) : M bool :=
  o <- get ;;
  set_baud_rate (baud (config_ o)) ;;;
  status <- hal (HAL_CAN_Init (r_Init results)) EvInit ;;
  if negb (status_eqb status HAL_OK) then ret false else
  let filter := server_filter in
  status <- hal (fun h => HAL_CAN_ConfigFilter (r_ConfigFilter results) h filter)
                (EvConfigFilter filter) ;;
  if negb (status_eqb status HAL_OK) then ret false else
  status <- hal (HAL_CAN_Start (r_Start results)) EvStart ;;
  if negb (status_eqb status HAL_OK) then ret false else
  status <- hal (fun h =>
                   HAL_CAN_ActivateNotification (r_ActivateNotification results) h
                     (Z.lor CAN_IT_RX_FIFO0_MSG_PENDING CAN_IT_RX_FIFO1_MSG_PENDING))
                (fun _ => EvActivateNotification
                            (Z.lor CAN_IT_RX_FIFO0_MSG_PENDING
                                   CAN_IT_RX_FIFO1_MSG_PENDING)) ;;
  if negb (status_eqb status HAL_OK) then ret false else
  modify (emit EvThreadCreate) ;;;
  modify (with_thread_id_valid true) ;;;
  ret true.

(** ** The server thread *)

(** Locals of [can_server_thread] that live across iterations. *)
Record locals := {
  heartbeat : CAN_message_t;
  lastHeartbeatTick : Z
}.

(** What the environment supplies to one pass of the loop: the value
    [osKernelSysTick] returns, the status of the notification call, and the
    content of the two uninitialised stack slots. *)
Record IterEnv := {
  now_tick : Z;
  notify_status : HAL_StatusTypeDef;
  stack_mailbox : Z;
  stack_header : CAN_RxHeaderTypeDef
}.

Definition HEARTBEAT_BASE : Z := 0x700.
Definition HEARTBEAT_PERIOD : Z := 100.
Definition SEM_WAIT : Z := 10.

(** [now - lastHeartbeatTick >= 100] on [uint32_t]. *)
Definition heartbeat_due (now last : Z) : bool :=
  HEARTBEAT_PERIOD <=? u32 (now - last).

(** A [write] whose outcome is recorded in the trace; [site] tells the
    forwarding call in the drain loop from the heartbeat call. *)
Definition write_at (site : CAN_message_t -> bool -> event) (uninit : Z)
           (txmsg : CAN_message_t) : M unit :=
  o <- get ;;
  let queued := 0 <? HAL_CAN_GetTxMailboxesFreeLevel (handle_ o) in
  write uninit txmsg ;;;
  modify (emit (site txmsg queued)).

(** Frames held by the two receive FIFOs. *)
Definition pending (h : CAN_HandleTypeDef) : nat :=
  (length (fifo0 h) + length (fifo1 h))%nat.

Section ServerThread.

(** The value of a default-constructed [CAN_message_t]; the member
    initialisers are in [interface_can.hpp], not among the sources. *)
Variable default_message : CAN_message_t.

(** Thread entry: the statements before [for (;;)]; [tick] is what
    [osKernelSysTick] returns there. *)
Definition thread_entry (tick : Z) : M locals :=
  o <- get ;;
  ret {| heartbeat :=
           with_id (u32 (HEARTBEAT_BASE + node_id (config_ o))) default_message;
         lastHeartbeatTick := u32 tick |}.

(** [while (available()) { read(rxmsg); write(rxmsg); }].  Every pass
    takes one frame out of a FIFO, so [pending] passes are enough for the
    loop to leave through its condition, as [drain_inbox] shows. *)
Fixpoint drain (fuel : nat) (env : IterEnv) (rxmsg : CAN_message_t) : M unit :=
  match fuel with
  | O => ret tt
  | S fuel' =>
      n <- available ;;
      if n =? 0 then ret tt
      else
        r <- read (stack_header env) rxmsg ;;
        write_at EvForward (stack_mailbox env) (snd r) ;;;
        drain fuel' env (snd r)
  end.

(** One pass of [for (;;)]. *)
Definition loop_body (env : IterEnv) (l : locals) : M locals :=
  let rxmsg := default_message in
  modify (emit (EvSemaphoreWait SEM_WAIT)) ;;;
  o <- get ;;
  drain (pending (handle_ o)) env rxmsg ;;;
  let now := u32 (now_tick env) in
  l' <- (if heartbeat_due now (lastHeartbeatTick l) then
           write_at EvHeartbeat (stack_mailbox env) (heartbeat l) ;;;
           ret {| heartbeat := heartbeat l; lastHeartbeatTick := now |}
         else ret l) ;;
  hal (fun h => HAL_CAN_ActivateNotification (notify_status env) h
                  CAN_IT_RX_FIFO0_MSG_PENDING)
      (fun _ => EvActivateNotification CAN_IT_RX_FIFO0_MSG_PENDING) ;;;
  ret l'.

(** What can happen to the object while the thread runs: a pass of the
    loop, a call of a setter from another context, or a bus event. *)
Inductive action :=
| Iterate (env : IterEnv)
| CallSetNodeId (nodeID : Z)
| CallSetBaudRate (baudRate : Z)
| BusReceive (hd : CAN_RxHeaderTypeDef) (data : list Z)
| BusTxComplete (mailbox : nat).

Definition step (a : action) (l : locals) : M locals :=
  match a with
  | Iterate env => loop_body env l
  | CallSetNodeId n => set_node_id n ;;; ret l
  | CallSetBaudRate b => set_baud_rate b ;;; ret l
  | BusReceive hd data => on_receive hd data ;;; ret l
  | BusTxComplete n => on_tx_complete n ;;; ret l
  end.

Fixpoint run (acts : list action) (l : locals) : M locals :=
  match acts with
  | [] => ret l
  | a :: acts' => l' <- step a l ;; run acts' l'
  end.

(** The thread from its entry on. *)
Definition can_server_thread (tick : Z) (acts : list action) : M locals :=
  l <- thread_entry tick ;; run acts l.

End ServerThread.

(** The prescaler the switch selects for each accepted rate. *)
Definition baud_table : list (Z * Z) :=
  [(CAN_BAUD_125K, 16); (CAN_BAUD_250K, 8);
   (CAN_BAUD_500K, 4); (CAN_BAUD_1000K, 2)].

(** The object with every transmit mailbox occupied by [txmsg]. *)
Definition congest (txmsg : CAN_message_t) (o : ODriveCAN) : ODriveCAN :=
  with_handle
    (with_mailboxes
       (map (fun _ => Some (tx_header txmsg, buf txmsg)) (mailboxes (handle_ o)))
       (handle_ o)) o.

(** ** Concrete objects used by the examples *)

Module Sample.

Definition message : CAN_message_t :=
  {| id := 0; isExt := false; len := 8; buf := [0; 0; 0; 0; 0; 0; 0; 0] |}.

Definition handle : CAN_HandleTypeDef :=
  {| Prescaler := 0; State := HAL_CAN_STATE_RESET; filters := [];
     mailboxes := [None; None; None]; fifo0 := []; fifo1 := []; IER := 0 |}.

Definition node : ODriveCAN :=
  {| handle_ := handle;
     config_ := {| baud := CAN_BAUD_250K; node_id := 5 |};
     thread_id_valid_ := false;
     trace_ := [] |}.

Definition all_ok : HalResults :=
  {| r_Init := HAL_OK; r_ConfigFilter := HAL_OK; r_Start := HAL_OK;
     r_ActivateNotification := HAL_OK |}.

(** The node once [start_can_server] has succeeded, trace cleared. *)
Definition started : ODriveCAN :=
  let o := snd (start_can_server all_ok node) in
  {| handle_ := handle_ o; config_ := config_ o;
     thread_id_valid_ := thread_id_valid_ o; trace_ := [] |}.

(** The same node with its three transmit mailboxes occupied. *)
Definition congested : ODriveCAN := congest message started.

Definition regular_header : CAN_RxHeaderTypeDef :=
  {| rx_StdId := 0x123; rx_ExtId := 0; rx_IDE := CAN_ID_STD;
     rx_RTR := CAN_RTR_DATA; rx_DLC := 2 |}.

Definition regular_data : list Z := [1; 2; 0; 0; 0; 0; 0; 0].

(** A heartbeat of another node that claims node ID 5. *)
Definition foreign_heartbeat_header : CAN_RxHeaderTypeDef :=
  {| rx_StdId := 0x705; rx_ExtId := 0; rx_IDE := CAN_ID_STD;
     rx_RTR := CAN_RTR_DATA; rx_DLC := 8 |}.

Definition foreign_serial : list Z := [0xDE; 0xAD; 0xBE; 0xEF; 1; 2; 3; 4].

Definition env (tick : Z) : IterEnv :=
  {| now_tick := tick; notify_status := HAL_OK; stack_mailbox := 2;
     stack_header := regular_header |}.

Definition receive (hd : CAN_RxHeaderTypeDef) (data : list Z) (o : ODriveCAN)
  : ODriveCAN :=
  snd (on_receive hd data o).

(** The started node with one regular frame pending. *)
Definition with_regular : ODriveCAN := receive regular_header regular_data started.

(** The started node with the foreign heartbeat pending. *)
Definition with_foreign_heartbeat : ODriveCAN :=
  receive foreign_heartbeat_header foreign_serial started.

(** The started node with the foreign heartbeat, then the regular frame,
    pending. *)
Definition with_both : ODriveCAN :=
  receive regular_header regular_data with_foreign_heartbeat.

(** The started node with three frames pending in FIFO 0. *)
Definition crowded : ODriveCAN :=
  receive regular_header regular_data with_both.

Definition timeout_on_start : HalResults :=
  {| r_Init := HAL_OK; r_ConfigFilter := HAL_OK; r_Start := HAL_TIMEOUT;
     r_ActivateNotification := HAL_OK |}.

End Sample.

(** ** Reading the trace *)

(** The frame [read] delivers for a FIFO entry. *)
Definition message_of (fr : CAN_RxHeaderTypeDef * list Z) : CAN_message_t :=
  let ext := negb (rx_IDE (fst fr) =? 0) in
  {| id := if ext then rx_ExtId (fst fr) else rx_StdId (fst fr);
     isExt := ext;
     len := u8 (rx_DLC (fst fr));
     buf := snd fr |}.

(** The frames the drain loop will see, oldest first: [read] serves FIFO 0
    before FIFO 1. *)
Definition inbox (h : CAN_HandleTypeDef) : list (CAN_RxHeaderTypeDef * list Z) :=
  if operational h then fifo0 h ++ fifo1 h else [].

(** The hardware FIFOs hold at most [FIFO_DEPTH] frames each. *)
Definition fifo_depth_ok (h : CAN_HandleTypeDef) : Prop :=
  (length (fifo0 h) <= FIFO_DEPTH)%nat /\ (length (fifo1 h) <= FIFO_DEPTH)%nat.

Definition is_forward (e : event) : bool :=
  match e with EvForward _ _ => true | _ => false end.

Definition is_heartbeat (e : event) : bool :=
  match e with EvHeartbeat _ _ => true | _ => false end.

Fixpoint forwarded (evs : list event) : list CAN_message_t :=
  match evs with
  | [] => []
  | EvForward m _ :: evs' => m :: forwarded evs'
  | _ :: evs' => forwarded evs'
  end.

Fixpoint heartbeats (evs : list event) : list CAN_message_t :=
  match evs with
  | [] => []
  | EvHeartbeat m _ :: evs' => m :: heartbeats evs'
  | _ :: evs' => heartbeats evs'
  end.

(** The events a computation appended to the trace. *)
Definition appended (before after : ODriveCAN) : list event :=
  skipn (length (trace_ before)) (trace_ after).

(** ** Identifier classes *)

(** The identifiers [0x700 + node_id] can take for an 8-bit node ID. *)
Definition heartbeat_id (i : Z) : bool := (0x700 <=? i) && (i <=? 0x7FF).

(** A filter configuration tells heartbeats from regular traffic when it
    never treats a heartbeat identifier and a regular standard identifier
    alike. *)
Definition distinguishes (fs : list CAN_FilterTypeDef) : Prop :=
  forall hb reg,
    heartbeat_id hb = true -> 0 <= reg < 0x800 -> heartbeat_id reg = false ->
    route fs (std_bits hb) <> route fs (std_bits reg).

Definition NOTIFY_BOTH_FIFOS : Z :=
  Z.lor CAN_IT_RX_FIFO0_MSG_PENDING CAN_IT_RX_FIFO1_MSG_PENDING.

(** ** The negotiation engine as the specification words it

    The lease table, the candidate scan and the inbound dispatch of the
    specification, written from its text.  Nothing in the source calls
    them: they are here to be compared with what the thread does. *)

Module Reference.

Inductive LeaseState := Free | TakenByOther | SelfHeld.

Record LeaseEntry := {
  state : LeaseState;
  last_refresh : Z
}.

Definition LeaseTable : Type := Z -> LeaseEntry.

(** One second of ticks at the kernel's 1 kHz tick rate. *)
Definition LEASE_WINDOW : Z := 1000.

Definition boot : LeaseTable :=
  fun _ => {| state := Free; last_refresh := 0 |}.

Definition refresh_taken (i at_tick : Z) (t : LeaseTable) : LeaseTable :=
  fun j =>
    if j =? i then {| state := TakenByOther; last_refresh := at_tick |}
    else t j.

Definition is_free (t : LeaseTable) (i now : Z) : bool :=
  match state (t i) with
  | Free => true
  | _ => LEASE_WINDOW <=? u32 (now - last_refresh (t i))
  end.

Fixpoint first_free (t : LeaseTable) (now : Z) (ids : list Z) : option Z :=
  match ids with
  | [] => None
  | i :: ids' => if is_free t i now then Some i else first_free t now ids'
  end.

(** The ID space [0 .. space-1], visited from [offset] on, wrapping. *)
Definition scan_order (space offset : nat) : list Z :=
  map (fun k => Z.of_nat ((offset + k) mod space)) (seq 0 space).

(** [None] is the exhausted ID space. *)
Definition select_candidate (t : LeaseTable) (now : Z) (space offset : nat)
  : option Z :=
  first_free t now (scan_order space offset).

Inductive FrameClass := Heartbeat | Regular.

Definition classify (m : CAN_message_t) : FrameClass :=
  if negb (isExt m) && heartbeat_id (id m) then Heartbeat else Regular.

(** Dispatch of one inbound frame to the engine: the new lease table and
    the frames put on the bus in response (none). *)
Definition dispatch (now : Z) (m : CAN_message_t) (t : LeaseTable)
  : LeaseTable * list CAN_message_t :=
  match classify m with
  | Heartbeat => (refresh_taken (id m - HEARTBEAT_BASE) now t, [])
  | Regular => (t, [])
  end.

End Reference.

(** ** Frame conditions and the heartbeat step *)

(** [write] touches the transmit mailboxes and nothing else. *)
Definition same_but_mailboxes (h h' : CAN_HandleTypeDef) : Prop :=
  Prescaler h' = Prescaler h /\ State h' = State h /\ filters h' = filters h
  /\ fifo0 h' = fifo0 h /\ fifo1 h' = fifo1 h /\ IER h' = IER h.

(** What a call leaves alone besides the peripheral's queues. *)
Definition same_setup (o o' : ODriveCAN) : Prop :=
  config_ o' = config_ o
  /\ thread_id_valid_ o' = thread_id_valid_ o
  /\ Prescaler (handle_ o') = Prescaler (handle_ o)
  /\ State (handle_ o') = State (handle_ o)
  /\ filters (handle_ o') = filters (handle_ o)
  /\ IER (handle_ o') = IER (handle_ o).

(** Events of the heartbeat step of an iteration that starts with locals
    [l], when the step is reached in state [o1] at tick [now]. *)
Definition tick_events (now : Z) (l : locals) (o1 : ODriveCAN) : list event :=
  if heartbeat_due (u32 now) (lastHeartbeatTick l) then
    [EvHeartbeat (heartbeat l)
       (0 <? HAL_CAN_GetTxMailboxesFreeLevel (handle_ o1))]
  else [].

Definition tick_locals (now : Z) (l : locals) : locals :=
  if heartbeat_due (u32 now) (lastHeartbeatTick l) then
    {| heartbeat := heartbeat l; lastHeartbeatTick := u32 now |}
  else l.

(** ** Further readings of the trace and of the configuration *)

(** Whether each forwarded frame found a transmit mailbox, in order. *)
Fixpoint queued_flags (evs : list event) : list bool :=
  match evs with
  | [] => []
  | EvForward _ q :: evs' => q :: queued_flags evs'
  | _ :: evs' => queued_flags evs'
  end.

(** Number of times the receive semaphore was released. *)
Fixpoint releases (evs : list event) : nat :=
  match evs with
  | [] => O
  | EvSemaphoreRelease :: evs' => S (releases evs')
  | _ :: evs' => releases evs'
  end.

(** The prescaler and the stored rate agree: 21 time quanta per bit. *)
Definition timing_consistent (o : ODriveCAN) : Prop :=
  CAN_CLOCK = 21 * (Prescaler (handle_ o) * baud (config_ o)).

(** What the server loop leaves alone in the peripheral. *)
Definition same_control (h h' : CAN_HandleTypeDef) : Prop :=
  Prescaler h' = Prescaler h /\ State h' = State h /\ filters h' = filters h
  /\ IER h' = IER h
  /\ (length (fifo0 h') <= length (fifo0 h))%nat
  /\ (length (fifo1 h') <= length (fifo1 h))%nat.

(** A run made of frame arrivals only. *)
Fixpoint receive_all (frames : list (CAN_RxHeaderTypeDef * list Z)) : M unit :=
  match frames with
  | [] => ret tt
  | (hd, data) :: frames' => on_receive hd data ;;; receive_all frames'
  end.

(** Outcome of [n] successive [write] calls that start with [k] free
    mailboxes and no transmission completing in between. *)
Fixpoint budget_flags (n : nat) (k : Z) : list bool :=
  match n with
  | O => []
  | S n' => (0 <? k) :: budget_flags n' (Z.max 0 (k - 1))
  end.

(** * Properties *)

(** ** Small facts about the model *)

Lemma u32_range x : 0 <= u32 x < 2 ^ 32.
Proof. unfold u32. apply Z.mod_pos_bound. lia. Qed.

Lemma u32_small x : 0 <= x < 2 ^ 32 -> u32 x = x.
Proof. intros H. unfold u32. apply Z.mod_small. exact H. Qed.

Lemma u8_small x : 0 <= x < 2 ^ 8 -> u8 x = x.
Proof. intros H. unfold u8. apply Z.mod_small. exact H. Qed.

Lemma first_empty_count {A} (l : list (option A)) :
  (0 < count_empty l)%nat -> exists i, first_empty l = Some i.
Proof.
  induction l as [|[a|] l IH]; simpl; intros H.
  - lia.
  - destruct (IH H) as [i Hi]. exists (S i). rewrite Hi. reflexivity.
  - exists O. reflexivity.
Qed.

Lemma count_empty_store {A} (l : list (option A)) i x :
  first_empty l = Some i ->
  S (count_empty (store i x l)) = count_empty l.
Proof.
  revert i. induction l as [|[a|] l IH]; simpl; intros i H.
  - discriminate.
  - destruct (first_empty l) as [j|] eqn:E; simpl in H; [|discriminate].
    injection H as <-. simpl. apply IH. reflexivity.
  - injection H as <-. reflexivity.
Qed.

Lemma nth_store {A} (l : list (option A)) i x :
  first_empty l = Some i -> nth_error (store i x l) i = Some (Some x).
Proof.
  revert i. induction l as [|[a|] l IH]; simpl; intros i H.
  - discriminate.
  - destruct (first_empty l) as [j|] eqn:E; simpl in H; [|discriminate].
    injection H as <-. simpl. apply IH. reflexivity.
  - injection H as <-. reflexivity.
Qed.

Lemma count_empty_occupied {A B} (x : A) (l : list B) :
  count_empty (map (fun _ => Some x) l) = O.
Proof. induction l as [|b l IH]; simpl; [reflexivity|exact IH]. Qed.

(** ** [set_baud_rate] *)

(** C8. [set_baud_rate] accepts exactly 125k, 250k, 500k and 1000k.  For
    each of them the prescaler of the handle becomes 16, 8, 4, 2
    respectively -- which divides the 42 MHz clock into 21 time quanta per
    bit -- and the rate becomes the stored [config_.baud], while the node
    ID, the rest of the handle, the validity flag and the trace keep their
    values; for every other argument the object is left exactly as it
    was, prescaler and configuration included. *)
Theorem set_baud_rate_table (baudRate : Z) (o : ODriveCAN) :
  let o' := snd (set_baud_rate baudRate o) in
  (forall p,
      In (baudRate, p) [(125000, 16); (250000, 8); (500000, 4); (1000000, 2)] ->
      Prescaler (handle_ o') = p
      /\ baud (config_ o') = baudRate
      /\ 42000000 = 21 * (p * baudRate)
      /\ node_id (config_ o') = node_id (config_ o)
      /\ State (handle_ o') = State (handle_ o)
      /\ filters (handle_ o') = filters (handle_ o)
      /\ mailboxes (handle_ o') = mailboxes (handle_ o)
      /\ fifo0 (handle_ o') = fifo0 (handle_ o)
      /\ fifo1 (handle_ o') = fifo1 (handle_ o)
      /\ IER (handle_ o') = IER (handle_ o)
      /\ thread_id_valid_ o' = thread_id_valid_ o
      /\ trace_ o' = trace_ o)
  /\ (~ In baudRate [125000; 250000; 500000; 1000000] ->
      set_baud_rate baudRate o = (tt, o)
      /\ Prescaler (handle_ o') = Prescaler (handle_ o)
      /\ config_ o' = config_ o).
Proof.
  cbv zeta. split.
  - intros p Hin. simpl in Hin.
    destruct Hin as [H|[H|[H|[H|[]]]]]; injection H as <- <-;
      repeat split; reflexivity.
  - intros Hnot. simpl in Hnot.
    assert (E : set_baud_rate baudRate o = (tt, o)).
    { unfold set_baud_rate.
      destruct (Z.eqb_spec baudRate CAN_BAUD_125K) as [E1|_];
        [exfalso; apply Hnot; auto|].
      destruct (Z.eqb_spec baudRate CAN_BAUD_250K) as [E2|_];
        [exfalso; apply Hnot; auto|].
      destruct (Z.eqb_spec baudRate CAN_BAUD_500K) as [E3|_];
        [exfalso; apply Hnot; auto|].
      destruct (Z.eqb_spec baudRate CAN_BAUD_1000K) as [E4|_];
        [exfalso; apply Hnot; auto 6|].
      reflexivity. }
    rewrite E. repeat split; reflexivity.
Qed.

(** ** [write] *)

Lemma free_level_first_empty h :
  0 < HAL_CAN_GetTxMailboxesFreeLevel h ->
  operational h = true /\ exists i, first_empty (mailboxes h) = Some i.
Proof.
  unfold HAL_CAN_GetTxMailboxesFreeLevel.
  destruct (operational h); intros H; [|lia].
  split; [reflexivity|]. apply first_empty_count. lia.
Qed.

Lemma write_queued uninit txmsg o :
  0 < HAL_CAN_GetTxMailboxesFreeLevel (handle_ o) ->
  exists i,
    first_empty (mailboxes (handle_ o)) = Some i
    /\ write uninit txmsg o =
         (Z.shiftl 1 (Z.of_nat i),
          with_handle
            (with_mailboxes
               (store i (tx_header txmsg, buf txmsg) (mailboxes (handle_ o)))
               (handle_ o)) o).
Proof.
  intros H. destruct (free_level_first_empty _ H) as [Hop [i Hi]].
  exists i. split; [exact Hi|].
  unfold write. apply Z.ltb_lt in H. rewrite H.
  unfold HAL_CAN_AddTxMessage. rewrite Hop, Hi. reflexivity.
Qed.

Lemma write_dropped uninit txmsg o :
  HAL_CAN_GetTxMailboxesFreeLevel (handle_ o) <= 0 ->
  write uninit txmsg o = (uninit, o).
Proof.
  intros H. unfold write.
  destruct (0 <? HAL_CAN_GetTxMailboxesFreeLevel (handle_ o)) eqn:E.
  - apply Z.ltb_lt in E. lia.
  - reflexivity.
Qed.

(** C9. [write] hands the frame to the hardware only when a transmit
    mailbox is free: it then stores the frame in the lowest empty mailbox
    and returns that mailbox's code.  When none is free the object is left
    untouched (the frame is dropped) and the value returned is the
    never-assigned content of [retTxMailbox]; since that content is
    arbitrary, every value a successful call can return is also returned by
    some dropping call, so the result does not tell the two apart. *)
Theorem write_gated_by_free_mailbox (uninit : Z) (txmsg : CAN_message_t)
        (o : ODriveCAN) :
  (0 < HAL_CAN_GetTxMailboxesFreeLevel (handle_ o) ->
   exists i,
     first_empty (mailboxes (handle_ o)) = Some i
     /\ nth_error (mailboxes (handle_ (snd (write uninit txmsg o)))) i
        = Some (Some (tx_header txmsg, buf txmsg))
     /\ fst (write uninit txmsg o) = Z.shiftl 1 (Z.of_nat i))
  /\ (HAL_CAN_GetTxMailboxesFreeLevel (handle_ o) <= 0 ->
      write uninit txmsg o = (uninit, o))
  /\ (forall r : Z,
        exists uninit' o',
          HAL_CAN_GetTxMailboxesFreeLevel (handle_ o') = 0
          /\ write uninit' txmsg o' = (r, o')).
Proof.
  split; [|split].
  - intros H. destruct (write_queued uninit txmsg o H) as [i [Hi Hw]].
    exists i. rewrite Hw. simpl. split; [exact Hi|split; [|reflexivity]].
    apply nth_store. exact Hi.
  - apply write_dropped.
  - intros r. exists r, (congest txmsg o).
    assert (E : HAL_CAN_GetTxMailboxesFreeLevel (handle_ (congest txmsg o)) = 0).
    { unfold HAL_CAN_GetTxMailboxesFreeLevel. simpl.
      rewrite count_empty_occupied. destruct (operational _); reflexivity. }
    split; [exact E|]. apply write_dropped. lia.
Qed.

Lemma write_gated_by_free_mailbox_witness :
  (exists i,
      first_empty (mailboxes (handle_ Sample.started)) = Some i
      /\ nth_error
           (mailboxes (handle_ (snd (write 7 Sample.message Sample.started)))) i
         = Some (Some (tx_header Sample.message, buf Sample.message))
      /\ fst (write 7 Sample.message Sample.started) = Z.shiftl 1 (Z.of_nat i))
  /\ write 7 Sample.message Sample.congested = (7, Sample.congested).
Proof.
  split.
  - apply (proj1 (write_gated_by_free_mailbox 7 Sample.message Sample.started)).
    vm_compute. reflexivity.
  - apply (proj1 (proj2 (write_gated_by_free_mailbox 7 Sample.message
                           Sample.congested))).
    vm_compute. discriminate.
Defined.

Lemma set_baud_rate_table_witness :
  (Prescaler (handle_ (snd (set_baud_rate 500000 Sample.node))) = 4
   /\ baud (config_ (snd (set_baud_rate 500000 Sample.node))) = 500000
   /\ 42000000 = 21 * (4 * 500000))
  /\ set_baud_rate 300000 Sample.node = (tt, Sample.node).
Proof.
  split.
  - destruct (proj1 (set_baud_rate_table 500000 Sample.node) 4)
      as (H1 & H2 & H3 & _).
    + simpl. right. right. left. reflexivity.
    + repeat split; assumption.
  - apply (proj2 (set_baud_rate_table 300000 Sample.node)).
    simpl. intros [H|[H|[H|[H|[]]]]]; discriminate H.
Defined.

(** ** Effects of the single calls *)

Lemma appended_app o o' evs :
  trace_ o' = trace_ o ++ evs -> appended o o' = evs.
Proof.
  intros H. unfold appended. rewrite H.
  rewrite skipn_app, skipn_all, Nat.sub_diag. reflexivity.
Qed.

Lemma forwarded_app a b : forwarded (a ++ b) = forwarded a ++ forwarded b.
Proof.
  induction a as [|e a IH]; simpl; [reflexivity|].
  destruct e; simpl; rewrite ?IH; reflexivity.
Qed.

Lemma heartbeats_app a b : heartbeats (a ++ b) = heartbeats a ++ heartbeats b.
Proof.
  induction a as [|e a IH]; simpl; [reflexivity|].
  destruct e; simpl; rewrite ?IH; reflexivity.
Qed.

Lemma heartbeats_forward_only evs :
  forallb is_forward evs = true -> heartbeats evs = [].
Proof.
  induction evs as [|e evs IH]; simpl; [reflexivity|].
  destruct e; simpl; try discriminate. exact IH.
Qed.

Lemma same_but_mailboxes_refl h : same_but_mailboxes h h.
Proof. repeat split. Qed.

Lemma write_frame uninit txmsg o :
  exists h',
    snd (write uninit txmsg o) = with_handle h' o
    /\ same_but_mailboxes (handle_ o) h'
    /\ (HAL_CAN_GetTxMailboxesFreeLevel (handle_ o) <= 0 -> h' = handle_ o).
Proof.
  destruct (Z_lt_le_dec 0 (HAL_CAN_GetTxMailboxesFreeLevel (handle_ o))) as [H|H].
  - destruct (write_queued uninit txmsg o H) as [i [_ Hw]].
    eexists. rewrite Hw. simpl. split; [reflexivity|].
    split; [repeat split|]. intros; lia.
  - rewrite (write_dropped uninit txmsg o H). exists (handle_ o). simpl.
    split; [destruct o; reflexivity|].
    split; [apply same_but_mailboxes_refl|reflexivity].
Qed.

Lemma write_at_frame site uninit txmsg o :
  exists h',
    write_at site uninit txmsg o =
      (tt, emit (site txmsg (0 <? HAL_CAN_GetTxMailboxesFreeLevel (handle_ o)))
             (with_handle h' o))
    /\ same_but_mailboxes (handle_ o) h'
    /\ (HAL_CAN_GetTxMailboxesFreeLevel (handle_ o) <= 0 -> h' = handle_ o).
Proof.
  destruct (write_frame uninit txmsg o) as [h' [Hw [Hs Hd]]].
  exists h'. split; [|split; assumption].
  unfold write_at, bind, get, modify.
  destruct (write uninit txmsg o) as [r o'] eqn:E. simpl in Hw. subst o'.
  reflexivity.
Qed.

(** [read] takes the oldest frame of FIFO 0, or of FIFO 1 when FIFO 0 is
    empty. *)
Lemma read_inbox uninit rxmsg o fr rest :
  inbox (handle_ o) = fr :: rest ->
  exists h',
    read uninit rxmsg o = (true, message_of fr, with_handle h' o)
    /\ inbox h' = rest
    /\ mailboxes h' = mailboxes (handle_ o)
    /\ State h' = State (handle_ o)
    /\ pending (handle_ o) = S (pending h').
Proof.
  unfold inbox, read, HAL_CAN_GetRxFifoFillLevel, HAL_CAN_GetRxMessage, pending.
  destruct (operational (handle_ o)) eqn:Hop; [|discriminate].
  simpl (CAN_RX_FIFO0 =? CAN_RX_FIFO0). simpl (CAN_RX_FIFO1 =? CAN_RX_FIFO0).
  cbv iota.
  destruct (fifo0 (handle_ o)) as [|[hd d] q] eqn:E0.
  - simpl. intros E1. rewrite E1. destruct fr as [hd d].
    exists (with_fifo1 rest (handle_ o)). simpl.
    unfold operational in *. simpl. rewrite Hop, E0.
    repeat split; reflexivity.
  - simpl. intros E1. injection E1 as <- <-.
    exists (with_fifo0 q (handle_ o)). simpl.
    unfold operational in *. simpl. rewrite Hop.
    repeat split; reflexivity.
Qed.

Lemma available_inbox o :
  fifo_depth_ok (handle_ o) ->
  available o = (Z.of_nat (length (inbox (handle_ o))), o).
Proof.
  intros [H0 H1]. unfold available, inbox, HAL_CAN_GetRxFifoFillLevel.
  unfold FIFO_DEPTH in *.
  destruct (operational (handle_ o)); simpl; [|reflexivity].
  rewrite length_app. f_equal. rewrite u32_small; lia.
Qed.

Lemma read_shrinks uninit rxmsg o :
  let h' := handle_ (snd (read uninit rxmsg o)) in
  (length (fifo0 h') <= length (fifo0 (handle_ o)))%nat
  /\ (length (fifo1 h') <= length (fifo1 (handle_ o)))%nat
  /\ Prescaler h' = Prescaler (handle_ o)
  /\ filters h' = filters (handle_ o)
  /\ IER h' = IER (handle_ o).
Proof.
  unfold read, HAL_CAN_GetRxFifoFillLevel, HAL_CAN_GetRxMessage.
  destruct (operational (handle_ o)); simpl;
    [|repeat split; reflexivity || apply Nat.le_refl].
  destruct (fifo0 (handle_ o)) as [|[hd d] q] eqn:E0; simpl.
  - destruct (fifo1 (handle_ o)) as [|[hd d] q] eqn:E1; simpl;
      rewrite ?E0, ?E1; simpl; repeat split; auto with arith.
  - rewrite ?E0; simpl; repeat split; auto with arith.
Qed.

Lemma inbox_same_but_mailboxes h h' :
  same_but_mailboxes h h' -> inbox h' = inbox h /\ (fifo_depth_ok h -> fifo_depth_ok h').
Proof.
  intros (_ & Hs & _ & H0 & H1 & _). unfold inbox, fifo_depth_ok, operational.
  rewrite Hs, H0, H1. split; auto.
Qed.

Lemma drain_unfold fuel env rxmsg o :
  drain (S fuel) env rxmsg o =
    if fst (available o) =? 0 then (tt, o)
    else
      let r := read (stack_header env) rxmsg o in
      let w := write_at EvForward (stack_mailbox env) (snd (fst r)) (snd r) in
      drain fuel env (snd (fst r)) (snd w).
Proof.
  simpl. unfold bind. unfold available at 1. simpl.
  destruct (_ =? 0); [reflexivity|].
  destruct (read _ _ _) as [[v m] o1]. simpl.
  destruct (write_at _ _ _ _) as [u o2]. reflexivity.
Qed.

(** The drain loop forwards every pending frame, oldest first and as
    received, and leaves both FIFOs empty: with [fuel] at least the number
    of pending frames it ends because [available()] is zero. *)
Lemma drain_inbox fuel env : forall rxmsg o,
  fifo_depth_ok (handle_ o) ->
  (length (inbox (handle_ o)) <= fuel)%nat ->
  exists evs o',
    drain fuel env rxmsg o = (tt, o')
    /\ trace_ o' = trace_ o ++ evs
    /\ forallb is_forward evs = true
    /\ forwarded evs = map message_of (inbox (handle_ o))
    /\ inbox (handle_ o') = []
    /\ fst (available o') = 0
    /\ same_setup o o'.
Proof.
  induction fuel as [|fuel IH]; intros rxmsg o Hd Hf.
  - exists [], o.
    assert (E : inbox (handle_ o) = [])
      by (destruct (inbox (handle_ o)); [reflexivity|simpl in Hf; lia]).
    rewrite app_nil_r, available_inbox, E by exact Hd.
    repeat split; reflexivity.
  - rewrite drain_unfold, available_inbox by exact Hd. cbn [fst].
    destruct (inbox (handle_ o)) as [|fr rest] eqn:E.
    + exists [], o. rewrite app_nil_r, available_inbox, E by exact Hd.
      repeat split; reflexivity.
    + replace (Z.of_nat (length (fr :: rest)) =? 0) with false
        by (symmetry; apply Z.eqb_neq; simpl length; lia).
      destruct (read_inbox (stack_header env) rxmsg o fr rest E)
        as (h1 & Hr & Hin1 & Hmb1 & Hst1 & _).
      pose proof (read_shrinks (stack_header env) rxmsg o) as Hsh.
      rewrite Hr in Hsh |- *. simpl in Hsh. cbn [fst snd].
      destruct Hsh as (Hl0 & Hl1 & Hp1 & Hfi1 & Hie1).
      destruct (write_at_frame EvForward (stack_mailbox env) (message_of fr)
                  (with_handle h1 o)) as (h2 & Hw & Hs2 & _).
      rewrite Hw. cbn [snd]. simpl in Hs2.
      destruct (inbox_same_but_mailboxes _ _ Hs2) as [Hin2 Hd2].
      set (q := 0 <? _) in *.
      set (o2 := emit (EvForward (message_of fr) q) (with_handle h2 (with_handle h1 o))).
      assert (Hd1 : fifo_depth_ok h1)
        by (destruct Hd; split; eapply Nat.le_trans; eassumption).
      destruct (IH (message_of fr) o2) as (evs & o' & Hdr & Htr & Hfw & Hms & Hin' & Hav & Hsame).
      { simpl. apply Hd2, Hd1. }
      { simpl. rewrite Hin2, Hin1. simpl in Hf. lia. }
      exists (EvForward (message_of fr) q :: evs), o'.
      split; [exact Hdr|].
      split; [rewrite Htr; simpl; rewrite <- app_assoc; reflexivity|].
      split; [simpl; exact Hfw|].
      split; [simpl; rewrite Hms; simpl; rewrite Hin2, Hin1; reflexivity|].
      split; [exact Hin'|]. split; [exact Hav|].
      destruct Hsame as (Hc & Ht & Hp & Hs & Hfi & Hie). simpl in *.
      destruct Hs2 as (Hp2 & Hst2 & Hfi2 & _ & _ & Hie2).
      repeat split; congruence.
Qed.

Lemma read_with_handle uninit rxmsg o :
  exists h', snd (read uninit rxmsg o) = with_handle h' o.
Proof.
  unfold read.
  destruct (0 <? HAL_CAN_GetRxFifoFillLevel (handle_ o) CAN_RX_FIFO0).
  - destruct (HAL_CAN_GetRxMessage _ _ _ _) as [[[s hd] d] h'].
    exists h'. reflexivity.
  - destruct (0 <? HAL_CAN_GetRxFifoFillLevel (handle_ o) CAN_RX_FIFO1).
    + destruct (HAL_CAN_GetRxMessage _ _ _ _) as [[[s hd] d] h'].
      exists h'. reflexivity.
    + exists (handle_ o). reflexivity.
Qed.

(** Whatever the FIFOs hold, the drain loop appends only forwarding events
    and never touches the configuration. *)
Lemma drain_forward_only fuel env : forall rxmsg o,
  exists evs o',
    drain fuel env rxmsg o = (tt, o')
    /\ trace_ o' = trace_ o ++ evs
    /\ forallb is_forward evs = true
    /\ config_ o' = config_ o
    /\ thread_id_valid_ o' = thread_id_valid_ o.
Proof.
  induction fuel as [|fuel IH]; intros rxmsg o.
  - exists [], o. rewrite app_nil_r. repeat split; reflexivity.
  - rewrite drain_unfold.
    destruct (fst (available o) =? 0).
    + exists [], o. rewrite app_nil_r. repeat split; reflexivity.
    + cbv zeta.
      destruct (read_with_handle (stack_header env) rxmsg o) as [h1 Hr].
      rewrite Hr.
      set (m := snd (fst (read (stack_header env) rxmsg o))).
      destruct (write_at_frame EvForward (stack_mailbox env) m (with_handle h1 o))
        as (h2 & Hw & _ & _).
      rewrite Hw. cbn [snd].
      set (q := 0 <? _) in *.
      destruct (IH m (emit (EvForward m q) (with_handle h2 (with_handle h1 o))))
        as (evs & o' & Hdr & Htr & Hfw & Hc & Ht).
      exists (EvForward m q :: evs), o'.
      split; [exact Hdr|].
      split; [rewrite Htr; simpl; rewrite <- app_assoc; reflexivity|].
      split; [exact Hfw|]. split; [exact Hc|exact Ht].
Qed.

(** Shape of one pass of the loop: the bounded wait, then the drain
    (reaching state [o1]), then the heartbeat step, then the notification
    call. *)
Lemma loop_body_shape default_message env l o :
  exists evs o1 o',
    drain (pending (handle_ o)) env default_message
      (emit (EvSemaphoreWait SEM_WAIT) o) = (tt, o1)
    /\ trace_ o1 = trace_ o ++ EvSemaphoreWait SEM_WAIT :: evs
    /\ forallb is_forward evs = true
    /\ loop_body default_message env l o = (tick_locals (now_tick env) l, o')
    /\ trace_ o' =
         trace_ o1 ++ tick_events (now_tick env) l o1
           ++ [EvActivateNotification CAN_IT_RX_FIFO0_MSG_PENDING]
    /\ config_ o' = config_ o
    /\ thread_id_valid_ o' = thread_id_valid_ o
    /\ (HAL_CAN_GetTxMailboxesFreeLevel (handle_ o1) <= 0 ->
        mailboxes (handle_ o') = mailboxes (handle_ o1))
    /\ fifo0 (handle_ o') = fifo0 (handle_ o1)
    /\ fifo1 (handle_ o') = fifo1 (handle_ o1)
    /\ State (handle_ o') = State (handle_ o1).
Proof.
  destruct (drain_forward_only (pending (handle_ o)) env default_message
              (emit (EvSemaphoreWait SEM_WAIT) o))
    as (evs & o1 & Hdr & Htr & Hfw & Hc & Ht).
  simpl in Htr, Hc, Ht.
  unfold loop_body, bind, modify, get, ret, hal. cbn [fst snd].
  change (handle_ (emit (EvSemaphoreWait SEM_WAIT) o)) with (handle_ o).
  rewrite Hdr. unfold tick_locals, tick_events.
  destruct (heartbeat_due (u32 (now_tick env)) (lastHeartbeatTick l)).
  - destruct (write_at_frame EvHeartbeat (stack_mailbox env) (heartbeat l) o1)
      as (h2 & Hw & Hs & Hdrop).
    rewrite Hw. destruct Hs as (_ & Hst & _ & H0 & H1 & _).
    exists evs, o1. eexists. split; [reflexivity|].
    split; [rewrite Htr, <- app_assoc; reflexivity|].
    split; [exact Hfw|]. split; [reflexivity|].
    unfold HAL_CAN_ActivateNotification. simpl.
    rewrite <- app_assoc. split; [reflexivity|].
    split; [exact Hc|]. split; [exact Ht|].
    split; [intros Hz; rewrite (Hdrop Hz)|];
      destruct (status_eqb (notify_status env) HAL_OK); simpl; auto.
  - exists evs, o1. eexists. split; [reflexivity|].
    split; [rewrite Htr, <- app_assoc; reflexivity|].
    split; [exact Hfw|]. split; [reflexivity|].
    unfold HAL_CAN_ActivateNotification. simpl.
    split; [reflexivity|].
    split; [exact Hc|]. split; [exact Ht|].
    destruct (status_eqb (notify_status env) HAL_OK); simpl; auto.
Qed.

Lemma loop_body_appended default_message env l o :
  exists evs o1,
    forallb is_forward evs = true
    /\ drain (pending (handle_ o)) env default_message
         (emit (EvSemaphoreWait SEM_WAIT) o) = (tt, o1)
    /\ appended o (snd (loop_body default_message env l o)) =
         EvSemaphoreWait SEM_WAIT :: evs
           ++ tick_events (now_tick env) l o1
           ++ [EvActivateNotification CAN_IT_RX_FIFO0_MSG_PENDING].
Proof.
  destruct (loop_body_shape default_message env l o)
    as (evs & o1 & o' & Hdr & Ht1 & Hfw & Hlb & Ht' & _).
  exists evs, o1. split; [exact Hfw|]. split; [exact Hdr|].
  apply appended_app. rewrite Hlb. cbn [snd]. rewrite Ht', Ht1.
  rewrite <- app_assoc. reflexivity.
Qed.

Lemma loop_body_heartbeats default_message env l o :
  heartbeats (appended o (snd (loop_body default_message env l o))) =
    if heartbeat_due (u32 (now_tick env)) (lastHeartbeatTick l)
    then [heartbeat l] else [].
Proof.
  destruct (loop_body_appended default_message env l o) as (evs & o1 & Hfw & _ & Ha).
  rewrite Ha. cbn [heartbeats]. rewrite !heartbeats_app.
  rewrite (heartbeats_forward_only _ Hfw). unfold tick_events.
  destruct (heartbeat_due _ _); reflexivity.
Qed.

(** ** The heartbeat period *)

Lemma elapsed_modular now last elapsed :
  0 <= elapsed < 2 ^ 32 ->
  u32 now = u32 (last + elapsed) ->
  u32 (u32 now - last) = elapsed.
Proof.
  intros He Hn. rewrite Hn. unfold u32.
  rewrite Zminus_mod_idemp_l.
  replace (last + elapsed - last) with elapsed by lia.
  apply Z.mod_small. exact He.
Qed.

(** C6. A pass of the loop attempts a heartbeat exactly when
    [now - lastHeartbeatTick], taken modulo 2^32, is at least the period of
    100 ticks.  That difference is the true number of ticks elapsed since
    the last heartbeat whenever fewer than 2^32 ticks went by, also when
    the counter wrapped in between: the attempt is made iff at least 100
    ticks elapsed. *)
Theorem heartbeat_due_modular (default_message : CAN_message_t)
        (env : IterEnv) (l : locals) (o : ODriveCAN) :
  let sent := heartbeats (appended o (snd (loop_body default_message env l o))) in
  let diff := u32 (u32 (now_tick env) - lastHeartbeatTick l) in
  (sent = [heartbeat l] <-> 100 <= diff)
  /\ (sent = [] <-> diff < 100)
  /\ (forall elapsed,
        0 <= elapsed < 2 ^ 32 ->
        u32 (now_tick env) = u32 (lastHeartbeatTick l + elapsed) ->
        diff = elapsed /\ (sent = [heartbeat l] <-> 100 <= elapsed)).
Proof.
  cbv zeta. rewrite loop_body_heartbeats. unfold heartbeat_due, HEARTBEAT_PERIOD.
  assert (A : forall d, ((if 100 <=? d then [heartbeat l] else []) = [heartbeat l]
                         <-> 100 <= d)
                        /\ ((if 100 <=? d then [heartbeat l] else []) = []
                            <-> d < 100)).
  { intros d. destruct (Z.leb_spec 100 d) as [H|H].
    - split; split; intros; try reflexivity; try lia; discriminate.
    - split; split; intros; try reflexivity; try lia; discriminate. }
  split; [apply A|]. split; [apply A|].
  intros elapsed He Hn.
  rewrite (elapsed_modular _ _ _ He Hn). split; [reflexivity|apply A].
Qed.

Lemma heartbeat_due_modular_witness :
  let l := {| heartbeat := with_id 0x705 Sample.message;
              lastHeartbeatTick := 2 ^ 32 - 50 |} in
  u32 (u32 50 - (2 ^ 32 - 50)) = 100
  /\ heartbeats
       (appended Sample.started
          (snd (loop_body Sample.message (Sample.env 50) l Sample.started)))
     = [with_id 0x705 Sample.message].
Proof.
  cbv zeta.
  destruct (heartbeat_due_modular Sample.message (Sample.env 50)
              {| heartbeat := with_id 0x705 Sample.message;
                 lastHeartbeatTick := 2 ^ 32 - 50 |} Sample.started)
    as (_ & _ & H).
  destruct (H 100) as [Hd Hs].
  - lia.
  - vm_compute. reflexivity.
  - split; [exact Hd|]. apply Hs. lia.
Defined.

(** ** Runs of the thread *)

Lemma set_baud_rate_frame baudRate o :
  trace_ (snd (set_baud_rate baudRate o)) = trace_ o
  /\ node_id (config_ (snd (set_baud_rate baudRate o))) = node_id (config_ o).
Proof.
  unfold set_baud_rate.
  repeat match goal with |- context [if ?b then _ else _] => destruct b end;
    split; reflexivity.
Qed.

Lemma on_receive_trace hd data o :
  exists evs,
    trace_ (snd (on_receive hd data o)) = trace_ o ++ evs
    /\ heartbeats evs = [].
Proof.
  unfold on_receive, bind, modify, get, ret. cbn [fst snd].
  set (o1 := with_handle _ o).
  destruct (negb _ && negb _).
  - exists [EvSemaphoreRelease]. split; reflexivity.
  - exists []. rewrite app_nil_r. split; reflexivity.
Qed.

Lemma step_heartbeat default_message a l o :
  exists evs,
    heartbeat (fst (step default_message a l o)) = heartbeat l
    /\ trace_ (snd (step default_message a l o)) = trace_ o ++ evs
    /\ Forall (eq (heartbeat l)) (heartbeats evs).
Proof.
  destruct a as [env|n|b|hd data|n]; cbn [step].
  - destruct (loop_body_shape default_message env l o)
      as (evs & o1 & o' & _ & Ht1 & Hfw & Hlb & Ht' & _).
    rewrite Hlb. cbn [fst snd]. eexists. split; [|split].
    + unfold tick_locals. destruct (heartbeat_due _ _); reflexivity.
    + rewrite Ht', Ht1, <- !app_assoc. reflexivity.
    + cbn [app heartbeats]. rewrite !heartbeats_app.
      rewrite (heartbeats_forward_only _ Hfw). unfold tick_events.
      destruct (heartbeat_due _ _); simpl; auto.
  - exists []. rewrite app_nil_r. repeat split; constructor.
  - exists []. rewrite app_nil_r. unfold bind.
    pose proof (set_baud_rate_frame b o) as [Ht _].
    destruct (set_baud_rate b o) as [[] o']. simpl in *.
    repeat split; [exact Ht|constructor].
  - destruct (on_receive_trace hd data o) as (evs & Ht & Hh).
    exists evs. unfold bind. destruct (on_receive hd data o) as [[] o'].
    simpl in *. rewrite Hh. repeat split; [exact Ht|constructor].
  - exists []. rewrite app_nil_r.
    destruct n as [|[|n]]; repeat split; constructor.
Qed.

(** Over any run -- passes of the loop interleaved with setter calls and
    bus events -- the [heartbeat] local keeps its value, and every
    heartbeat the thread attempts is that value. *)
Lemma run_heartbeat default_message acts : forall l o,
  exists evs,
    heartbeat (fst (run default_message acts l o)) = heartbeat l
    /\ trace_ (snd (run default_message acts l o)) = trace_ o ++ evs
    /\ Forall (eq (heartbeat l)) (heartbeats evs).
Proof.
  induction acts as [|a acts IH]; intros l o.
  - exists []. rewrite app_nil_r. repeat split; constructor.
  - simpl. unfold bind.
    destruct (step_heartbeat default_message a l o) as (e1 & Hh1 & Ht1 & Hf1).
    destruct (step default_message a l o) as [l1 o1]. simpl in Hh1, Ht1.
    destruct (IH l1 o1) as (e2 & Hh2 & Ht2 & Hf2).
    exists (e1 ++ e2). split; [congruence|].
    split; [rewrite Ht2, Ht1, app_assoc; reflexivity|].
    rewrite heartbeats_app. apply Forall_app. split; [exact Hf1|].
    rewrite <- Hh1. exact Hf2.
Qed.

Lemma thread_heartbeats default_message tick acts o :
  heartbeat (fst (can_server_thread default_message tick acts o)) =
    with_id (u32 (HEARTBEAT_BASE + node_id (config_ o))) default_message
  /\ Forall (eq (with_id (u32 (HEARTBEAT_BASE + node_id (config_ o)))
                   default_message))
       (heartbeats
          (appended o (snd (can_server_thread default_message tick acts o)))).
Proof.
  unfold can_server_thread, thread_entry, bind, get, ret. cbn [fst snd].
  set (l := {| heartbeat := _; lastHeartbeatTick := _ |}).
  destruct (run_heartbeat default_message acts l o) as (evs & Hh & Ht & Hf).
  split; [exact Hh|]. rewrite (appended_app _ _ _ Ht). exact Hf.
Qed.

(** ** [set_node_id] and the heartbeat identifier *)

(** C10. [set_node_id] changes the [node_id] field of the configuration and
    nothing else.  The server thread computes its heartbeat identifier once,
    at entry, as 0x700 plus the node ID configured at that instant; over any
    later run of the thread, whatever [set_node_id] calls are interleaved
    with the passes of its loop, the [heartbeat] local and every heartbeat
    attempted carry that identifier. *)
Theorem heartbeat_id_fixed_at_entry (default_message : CAN_message_t)
        (tick nodeID : Z) (acts : list (action)) (o : ODriveCAN) :
  (let o' := snd (set_node_id nodeID o) in
   node_id (config_ o') = u8 nodeID
   /\ baud (config_ o') = baud (config_ o)
   /\ handle_ o' = handle_ o
   /\ thread_id_valid_ o' = thread_id_valid_ o
   /\ trace_ o' = trace_ o)
  /\ (let r := can_server_thread default_message tick acts o in
      let entry_id := u32 (0x700 + node_id (config_ o)) in
      id (heartbeat (fst r)) = entry_id
      /\ Forall (fun m => id m = entry_id) (heartbeats (appended o (snd r)))
      /\ (is_u8 (node_id (config_ o)) -> entry_id = 0x700 + node_id (config_ o))).
Proof.
  split; [repeat split|].
  cbv zeta. destruct (thread_heartbeats default_message tick acts o) as [Hh Hf].
  split; [rewrite Hh; reflexivity|].
  split.
  - eapply Forall_impl; [|exact Hf]. intros m <-. reflexivity.
  - unfold is_u8. intros H. apply u32_small. lia.
Qed.

Lemma heartbeat_id_fixed_at_entry_witness :
  let acts :=
    [Iterate (Sample.env 1100); CallSetNodeId 9; Iterate (Sample.env 1200);
     CallSetNodeId 200; Iterate (Sample.env 1300)] in
  let r := can_server_thread Sample.message 1000 acts Sample.started in
  node_id (config_ (snd r)) = 200
  /\ map id (heartbeats (appended Sample.started (snd r))) = [0x705; 0x705; 0x705]
  /\ u32 (0x700 + node_id (config_ Sample.started)) = 0x700 + 5.
Proof.
  cbv zeta. split; [vm_compute; reflexivity|]. split; [vm_compute; reflexivity|].
  apply (proj2 (proj2 (proj2 (heartbeat_id_fixed_at_entry Sample.message 1000 9
     [Iterate (Sample.env 1100); CallSetNodeId 9; Iterate (Sample.env 1200);
      CallSetNodeId 200; Iterate (Sample.env 1300)] Sample.started)))).
  vm_compute. split; [discriminate|reflexivity].
Defined.

(** ** [start_can_server] *)

Lemma server_filter_accepts_all bits : filter_accepts server_filter bits = true.
Proof.
  unfold filter_accepts, filter_mask, server_filter. simpl.
  rewrite Z.land_0_r. reflexivity.
Qed.

Lemma route_server_filter fs bits :
  route (server_filter :: fs) bits = Some CAN_RX_FIFO0.
Proof. simpl route. rewrite server_filter_accepts_all. reflexivity. Qed.

Lemma set_baud_rate_trace baudRate o :
  exists o0,
    set_baud_rate baudRate o = (tt, o0)
    /\ trace_ o0 = trace_ o
    /\ thread_id_valid_ o0 = thread_id_valid_ o.
Proof.
  unfold set_baud_rate.
  repeat match goal with |- context [if ?b then _ else _] => destruct b end;
    eexists; repeat split; reflexivity.
Qed.

Ltac start_case Happ Hv :=
  match goal with
  | |- appended _ _ = _ =>
      apply Happ; simpl; rewrite <- ?app_assoc; reflexivity
  | |- route _ _ = _ =>
      cbn [handle_ filters emit with_handle with_State with_IER with_filters];
      apply route_server_filter
  | |- thread_id_valid_ _ = _ => simpl; first [exact Hv | reflexivity]
  | |- _ => reflexivity
  end.

(** Order of the HAL calls in [start_can_server]: init, filter, start,
    notification, each made at most once; the first status other than
    [HAL_OK] ends the call with [false] and no thread; when all four
    succeed the thread is created and the call returns [true].  The one
    filter installed accepts every identifier into FIFO 0. *)
Lemma start_can_server_fails_fast (results : HalResults) (o : ODriveCAN) :
  let r := start_can_server results o in
  let evs := appended o (snd r) in
  (r_Init results <> HAL_OK ->
   fst r = false /\ evs = [EvInit (r_Init results)]
   /\ thread_id_valid_ (snd r) = thread_id_valid_ o)
  /\ (r_Init results = HAL_OK -> r_ConfigFilter results <> HAL_OK ->
      fst r = false
      /\ evs = [EvInit HAL_OK; EvConfigFilter server_filter (r_ConfigFilter results)]
      /\ thread_id_valid_ (snd r) = thread_id_valid_ o)
  /\ (r_Init results = HAL_OK -> r_ConfigFilter results = HAL_OK ->
      r_Start results <> HAL_OK ->
      fst r = false
      /\ evs = [EvInit HAL_OK; EvConfigFilter server_filter HAL_OK;
                EvStart (r_Start results)]
      /\ thread_id_valid_ (snd r) = thread_id_valid_ o)
  /\ (r_Init results = HAL_OK -> r_ConfigFilter results = HAL_OK ->
      r_Start results = HAL_OK -> r_ActivateNotification results <> HAL_OK ->
      fst r = false
      /\ evs = [EvInit HAL_OK; EvConfigFilter server_filter HAL_OK;
                EvStart HAL_OK; EvActivateNotification NOTIFY_BOTH_FIFOS]
      /\ thread_id_valid_ (snd r) = thread_id_valid_ o)
  /\ (r_Init results = HAL_OK -> r_ConfigFilter results = HAL_OK ->
      r_Start results = HAL_OK -> r_ActivateNotification results = HAL_OK ->
      fst r = true
      /\ evs = [EvInit HAL_OK; EvConfigFilter server_filter HAL_OK;
                EvStart HAL_OK; EvActivateNotification NOTIFY_BOTH_FIFOS;
                EvThreadCreate]
      /\ thread_id_valid_ (snd r) = true)
  /\ (r_Init results = HAL_OK -> r_ConfigFilter results = HAL_OK ->
      forall bits, route (filters (handle_ (snd r))) bits = Some CAN_RX_FIFO0).
Proof.
  cbv zeta. unfold start_can_server, bind, get. cbn [fst snd].
  destruct (set_baud_rate_trace (baud (config_ o)) o) as (o0 & Hsb & Ht0 & Hv0).
  rewrite Hsb. clear Hsb.
  assert (Happ : forall o' evs, trace_ o' = trace_ o0 ++ evs -> appended o o' = evs).
  { intros o' evs H. apply appended_app. rewrite H, Ht0. reflexivity. }
  destruct results as [s1 s2 s3 s4]. cbn [r_Init r_ConfigFilter r_Start
    r_ActivateNotification].
  unfold hal, ret, modify. cbn [fst snd].
  destruct s1; cbn [HAL_CAN_Init status_eqb negb fst snd];
    try (repeat split; intros; try congruence; start_case Happ Hv0).
  destruct s2; cbn [HAL_CAN_ConfigFilter status_eqb negb fst snd];
    try (repeat split; intros; try congruence; start_case Happ Hv0).
  destruct s3; cbn [HAL_CAN_Start status_eqb negb fst snd];
    try (repeat split; intros; try congruence; start_case Happ Hv0).
  destruct s4; cbn [HAL_CAN_ActivateNotification status_eqb negb fst snd];
    repeat split; intros; try congruence; start_case Happ Hv0.
Qed.

Lemma start_can_server_fails_fast_witness :
  (fst (start_can_server Sample.timeout_on_start Sample.node) = false
   /\ appended Sample.node (snd (start_can_server Sample.timeout_on_start Sample.node))
      = [EvInit HAL_OK; EvConfigFilter server_filter HAL_OK; EvStart HAL_TIMEOUT]
   /\ thread_id_valid_ (snd (start_can_server Sample.timeout_on_start Sample.node))
      = false)
  /\ (fst (start_can_server Sample.all_ok Sample.node) = true
      /\ appended Sample.node (snd (start_can_server Sample.all_ok Sample.node))
         = [EvInit HAL_OK; EvConfigFilter server_filter HAL_OK;
            EvStart HAL_OK; EvActivateNotification NOTIFY_BOTH_FIFOS;
            EvThreadCreate]
      /\ thread_id_valid_ (snd (start_can_server Sample.all_ok Sample.node)) = true).
Proof.
  split.
  - apply (proj1 (proj2 (proj2
      (start_can_server_fails_fast Sample.timeout_on_start Sample.node))));
      [reflexivity | reflexivity | discriminate].
  - apply (proj1 (proj2 (proj2 (proj2 (proj2
      (start_can_server_fails_fast Sample.all_ok Sample.node))))));
      reflexivity.
Defined.

(** C7 (code at the failing input). The header allots filter bank 0 to
    heartbeat messages.  After a successful [start_can_server] the filter
    in bank 0 has identifier and mask all zero: it routes the heartbeat
    identifier 0x705 and the regular identifier 0x123 to the same FIFO,
    so it does not distinguish the heartbeat sub-range from regular
    traffic.  Nor is every failed configuration step reported: with the
    unsupported rate 300000 configured, [set_baud_rate] leaves the
    prescaler as it was and [start_can_server] still returns [true]. *)
Theorem installed_filter_does_not_distinguish :
  let r := start_can_server Sample.all_ok Sample.node in
  let r' := start_can_server Sample.all_ok
              (with_config {| baud := 300000; node_id := 5 |} Sample.node) in
  fst r = true
  /\ heartbeat_id 0x705 = true /\ heartbeat_id 0x123 = false
  /\ route (filters (handle_ (snd r))) (std_bits 0x705) = Some CAN_RX_FIFO0
  /\ route (filters (handle_ (snd r))) (std_bits 0x123) = Some CAN_RX_FIFO0
  /\ ~ distinguishes (filters (handle_ (snd r)))
  /\ fst r' = true
  /\ Prescaler (handle_ (snd r')) = Prescaler Sample.handle.
Proof.
  cbv zeta. repeat split; try reflexivity.
  intros H. apply (H 0x705 0x123); try reflexivity. lia.
Qed.

(** ** The server loop: drain, then tick *)

Lemma inbox_le_pending h : (length (inbox h) <= pending h)%nat.
Proof.
  unfold inbox, pending. destruct (operational h); simpl.
  - rewrite length_app. apply Nat.le_refl.
  - apply Nat.le_0_l.
Qed.

(** Shape of a pass.  It first waits for the semaphore with a timeout of
    10 ticks; then takes every pending frame out of the receive FIFOs
    (FIFO 0 before FIFO 1, oldest first) and hands each to [write]; only
    then, with both FIFOs empty, does it take the heartbeat step, and last
    re-enables the FIFO 0 notification.  The locals the pass leaves depend
    on the tick alone. *)
Lemma loop_drains_then_ticks (default_message : CAN_message_t)
        (env : IterEnv) (l : locals) (o : ODriveCAN) :
  fifo_depth_ok (handle_ o) ->
  exists fw o1,
    drain (pending (handle_ o)) env default_message
      (emit (EvSemaphoreWait SEM_WAIT) o) = (tt, o1)
    /\ appended o (snd (loop_body default_message env l o)) =
         EvSemaphoreWait 10 :: fw
           ++ tick_events (now_tick env) l o1
           ++ [EvActivateNotification CAN_IT_RX_FIFO0_MSG_PENDING]
    /\ forallb is_forward fw = true
    /\ forwarded fw = map message_of (inbox (handle_ o))
    /\ fst (available o1) = 0
    /\ inbox (handle_ (snd (loop_body default_message env l o))) = []
    /\ fst (loop_body default_message env l o) = tick_locals (now_tick env) l
    /\ 0 < SEM_WAIT /\ SEM_WAIT * 10 = HEARTBEAT_PERIOD.
Proof.
  intros Hd.
  destruct (loop_body_shape default_message env l o)
    as (evs & o1 & o' & Hdr & Ht1 & Hfw & Hlb & Ht' & _ & _ & _ & H0 & H1 & Hst).
  destruct (drain_inbox (pending (handle_ o)) env default_message
              (emit (EvSemaphoreWait SEM_WAIT) o) Hd (inbox_le_pending _))
    as (evs2 & o2 & Hdr2 & Ht2 & _ & Hms & Hin & Hav & _).
  rewrite Hdr in Hdr2. injection Hdr2 as <-.
  simpl in Ht2, Hms. rewrite Ht1 in Ht2.
  change (trace_ o ++ EvSemaphoreWait SEM_WAIT :: evs)
    with (trace_ o ++ [EvSemaphoreWait SEM_WAIT] ++ evs) in Ht2.
  rewrite app_assoc in Ht2. apply app_inv_head in Ht2. subst evs2.
  exists evs, o1. split; [exact Hdr|].
  split.
  { apply appended_app. rewrite Hlb. cbn [snd]. rewrite Ht', Ht1.
    rewrite <- app_assoc. reflexivity. }
  split; [exact Hfw|]. split; [exact Hms|]. split; [exact Hav|].
  split.
  { rewrite Hlb. cbn [snd]. unfold inbox in *. unfold operational in *.
    rewrite Hst, H0, H1. exact Hin. }
  split; [rewrite Hlb; reflexivity|].
  split; reflexivity.
Qed.

Lemma loop_drains_then_ticks_witness :
  exists fw o1,
    drain (pending (handle_ Sample.with_both)) (Sample.env 1005) Sample.message
      (emit (EvSemaphoreWait SEM_WAIT) Sample.with_both) = (tt, o1)
    /\ appended Sample.with_both
         (snd (loop_body Sample.message (Sample.env 1005)
                 {| heartbeat := with_id 0x705 Sample.message;
                    lastHeartbeatTick := 1000 |} Sample.with_both)) =
         EvSemaphoreWait 10 :: fw
           ++ tick_events 1005 {| heartbeat := with_id 0x705 Sample.message;
                                  lastHeartbeatTick := 1000 |} o1
           ++ [EvActivateNotification CAN_IT_RX_FIFO0_MSG_PENDING]
    /\ forallb is_forward fw = true
    /\ forwarded fw =
         [message_of (Sample.foreign_heartbeat_header, Sample.foreign_serial);
          message_of (Sample.regular_header, Sample.regular_data)].
Proof.
  destruct (loop_drains_then_ticks Sample.message (Sample.env 1005)
              {| heartbeat := with_id 0x705 Sample.message;
                 lastHeartbeatTick := 1000 |} Sample.with_both)
    as (fw & o1 & Hdr & Ha & Hf & Hm & _).
  - vm_compute. lia.
  - exists fw, o1. repeat split; assumption.
Defined.

(** C5 (code at the failing input). With a foreign heartbeat claiming the
    node's own ID 5 and a regular frame pending, the pass does drain both
    before the heartbeat step, but it neither classifies nor records
    them: each is put back on the bus as received and the locals are left
    as they were, whereas dispatch to the engine tells the two apart,
    marks ID 5 taken (rule a of the header) and transmits nothing. *)
Theorem inbound_frames_are_retransmitted :
  let hb := message_of (Sample.foreign_heartbeat_header, Sample.foreign_serial) in
  let reg := message_of (Sample.regular_header, Sample.regular_data) in
  let l := fst (thread_entry Sample.message 1000 Sample.with_both) in
  let r := loop_body Sample.message (Sample.env 1005) l Sample.with_both in
  Reference.classify hb = Reference.Heartbeat
  /\ Reference.classify reg = Reference.Regular
  /\ snd (Reference.dispatch 1005 hb Reference.boot) = []
  /\ snd (Reference.dispatch 1005 reg Reference.boot) = []
  /\ appended Sample.with_both (snd r) =
       [EvSemaphoreWait 10; EvForward hb true; EvForward reg true;
        EvActivateNotification CAN_IT_RX_FIFO0_MSG_PENDING]
  /\ fst r = l.
Proof. vm_compute. repeat split; reflexivity. Qed.

(** ** The candidate node ID *)

Lemma first_free_is_free t now ids i :
  Reference.first_free t now ids = Some i -> Reference.is_free t i now = true.
Proof.
  induction ids as [|j ids IH]; simpl; [discriminate|].
  destruct (Reference.is_free t j now) eqn:E; [|exact IH].
  intros H. injection H as <-. exact E.
Qed.

(** The candidate of the thread is the configured node ID read at thread
    entry: after any run the [heartbeat] local still carries it, the next
    pass leaves it unchanged, and any heartbeat that pass attempts is
    under it. *)
Lemma candidate_is_configured_id (default_message : CAN_message_t)
        (tick : Z) (acts : list action) (env : IterEnv) (o o2 : ODriveCAN) :
  let l := fst (can_server_thread default_message tick acts o) in
  let hb := with_id (u32 (0x700 + node_id (config_ o))) default_message in
  heartbeat l = hb
  /\ heartbeat (fst (loop_body default_message env l o2)) = hb
  /\ Forall (eq hb)
       (heartbeats (appended o2 (snd (loop_body default_message env l o2)))).
Proof.
  cbv zeta.
  destruct (thread_heartbeats default_message tick acts o) as [Hh _].
  split; [exact Hh|].
  destruct (step_heartbeat default_message (Iterate env)
              (fst (can_server_thread default_message tick acts o)) o2)
    as (evs & Hl & Ht & Hf).
  cbn [step] in Hl, Ht. rewrite Hh in Hl, Hf.
  split; [exact Hl|]. rewrite (appended_app _ _ _ Ht). exact Hf.
Qed.

(** C4 (code at the failing input). The node has node ID 5 configured and
    has not sent a heartbeat yet; a foreign heartbeat claiming ID 5 is
    pending.  By rule a of the header ID 5 is then taken, and in the lease
    table this leaves ID 5 is not free, so a scan for the first free ID
    returns another one from every offset (6 when started at 5).  The
    thread selects no new candidate: in that very pass it attempts its
    heartbeat under ID 5, which rule c forbids. *)
Theorem taken_id_is_still_probed :
  let table := Reference.refresh_taken 5 1100 Reference.boot in
  let r := can_server_thread Sample.message 1000 [Iterate (Sample.env 1100)]
             Sample.with_foreign_heartbeat in
  Reference.is_free table 5 1100 = false
  /\ (forall offset, Reference.select_candidate table 1100 256 offset <> Some 5)
  /\ Reference.select_candidate table 1100 256 5 = Some 6
  /\ appended Sample.with_foreign_heartbeat (snd r) =
       [EvSemaphoreWait 10;
        EvForward (message_of (Sample.foreign_heartbeat_header,
                               Sample.foreign_serial)) true;
        EvHeartbeat (with_id 0x705 Sample.message) true;
        EvActivateNotification CAN_IT_RX_FIFO0_MSG_PENDING].
Proof.
  cbv zeta. split; [reflexivity|]. split; [|split; vm_compute; reflexivity].
  intros offset H. apply first_free_is_free in H. discriminate H.
Qed.

(** ** Where the thread departs from the rules in the file's header *)

(** C1 (code at the failing input). Rule d of the header forbids regular
    messages under a node ID that is not self-assigned, and by rule b no ID
    is self-assigned before a heartbeat has been sent.  On the first pass
    of a freshly entered thread, with one regular frame pending, the frame
    is queued for transmission although no heartbeat has been attempted:
    [write] and the loop consult no assignment. *)
Theorem regular_frame_sent_unassigned (default_message : CAN_message_t) :
  let o := Sample.with_regular in
  let reg := message_of (Sample.regular_header, Sample.regular_data) in
  let r := can_server_thread default_message 1000 [Iterate (Sample.env 1005)] o in
  appended o (snd r) =
    [EvSemaphoreWait 10; EvForward reg true;
     EvActivateNotification CAN_IT_RX_FIFO0_MSG_PENDING]
  /\ heartbeats (appended o (snd r)) = []
  /\ nth_error (mailboxes (handle_ (snd r))) 0 =
       Some (Some (tx_header reg, Sample.regular_data)).
Proof. vm_compute. repeat split; reflexivity. Qed.

(** C2 (code at the failing input). The thread sets only the identifier of
    its heartbeat message: length, extended flag and payload of every
    heartbeat it ever attempts are those of a default-constructed message,
    whatever the node.  So for each default there is an 8-byte serial
    number that no heartbeat carries. *)
Theorem heartbeat_payload_is_default (default_message : CAN_message_t)
        (tick : Z) (acts : list action) (o : ODriveCAN) :
  let sent :=
    heartbeats (appended o (snd (can_server_thread default_message tick acts o))) in
  Forall (fun m => buf m = buf default_message
                   /\ len m = len default_message
                   /\ isExt m = isExt default_message
                   /\ id m = u32 (0x700 + node_id (config_ o))) sent
  /\ exists serial,
       length serial = 8%nat /\ Forall is_u8 serial
       /\ Forall (fun m => buf m <> serial) sent.
Proof.
  cbv zeta.
  destruct (thread_heartbeats default_message tick acts o) as [_ Hf].
  split.
  - eapply Forall_impl; [|exact Hf]. intros m <-. repeat split.
  - set (zeros := [0; 0; 0; 0; 0; 0; 0; 0]).
    set (ones := [1; 1; 1; 1; 1; 1; 1; 1]).
    assert (Hu0 : Forall is_u8 zeros) by (repeat constructor; unfold is_u8; lia).
    assert (Hu1 : Forall is_u8 ones) by (repeat constructor; unfold is_u8; lia).
    destruct (list_eq_dec Z.eq_dec (buf default_message) zeros) as [E|E].
    + exists ones. split; [reflexivity|]. split; [exact Hu1|].
      eapply Forall_impl; [|exact Hf]. intros m <-. simpl. rewrite E.
      discriminate.
    + exists zeros. split; [reflexivity|]. split; [exact Hu0|].
      eapply Forall_impl; [|exact Hf]. intros m <-. exact E.
Qed.

Lemma drain_nothing fuel env rxmsg o :
  inbox (handle_ o) = [] -> drain fuel env rxmsg o = (tt, o).
Proof.
  intros H. destruct fuel as [|fuel]; [reflexivity|].
  rewrite drain_unfold.
  replace (fst (available o)) with 0; [reflexivity|].
  unfold available, inbox, HAL_CAN_GetRxFifoFillLevel in *. cbn [fst].
  destruct (operational (handle_ o)); [|reflexivity].
  apply app_eq_nil in H. destruct H as [-> ->]. reflexivity.
Qed.

(** C3 (code at the failing input). Rules a and c of the header make a
    failed heartbeat evidence that the ID is taken and forbid heartbeats
    under a taken ID.  When the heartbeat is due, the bus is silent and no
    transmit mailbox is free, the pass attempts the heartbeat, [write]
    drops it, and the pass goes on as after a success: nothing is queued,
    [lastHeartbeatTick] is set to now and the candidate is kept.  One
    period later the heartbeat is attempted again under the same ID. *)
Theorem failed_heartbeat_goes_unnoticed (default_message : CAN_message_t)
        (env env2 : IterEnv) (l : locals) (o o2 : ODriveCAN) :
  inbox (handle_ o) = [] ->
  HAL_CAN_GetTxMailboxesFreeLevel (handle_ o) <= 0 ->
  heartbeat_due (u32 (now_tick env)) (lastHeartbeatTick l) = true ->
  heartbeat_due (u32 (now_tick env2)) (u32 (now_tick env)) = true ->
  let r := loop_body default_message env l o in
  appended o (snd r) =
    [EvSemaphoreWait 10; EvHeartbeat (heartbeat l) false;
     EvActivateNotification CAN_IT_RX_FIFO0_MSG_PENDING]
  /\ mailboxes (handle_ (snd r)) = mailboxes (handle_ o)
  /\ fst r = {| heartbeat := heartbeat l; lastHeartbeatTick := u32 (now_tick env) |}
  /\ heartbeats (appended o2 (snd (loop_body default_message env2 (fst r) o2))) =
       [heartbeat l].
Proof.
  intros Hin Hfree Hdue Hdue2. cbv zeta.
  destruct (loop_body_shape default_message env l o)
    as (evs & o1 & o' & Hdr & Ht1 & Hfw & Hlb & Ht' & _ & _ & Hmb & _).
  rewrite drain_nothing in Hdr by exact Hin. injection Hdr as <-.
  simpl in Ht1, Hmb, Ht'.
  change (trace_ o ++ EvSemaphoreWait SEM_WAIT :: evs)
    with (trace_ o ++ [EvSemaphoreWait SEM_WAIT] ++ evs) in Ht1.
  rewrite app_assoc in Ht1.
  rewrite <- (app_nil_r (trace_ o ++ [EvSemaphoreWait SEM_WAIT])) in Ht1 at 1.
  apply app_inv_head in Ht1. subst evs.
  rewrite Hlb. cbn [fst snd].
  unfold tick_events, tick_locals in *. rewrite Hdue in *.
  change (handle_ (emit (EvSemaphoreWait SEM_WAIT) o)) with (handle_ o) in Ht'.
  replace (0 <? HAL_CAN_GetTxMailboxesFreeLevel (handle_ o)) with false in Ht'
    by (symmetry; apply Z.ltb_ge; exact Hfree).
  split; [apply appended_app; rewrite Ht', <- app_assoc; reflexivity|].
  split; [apply Hmb; exact Hfree|]. split; [reflexivity|].
  rewrite loop_body_heartbeats. cbn [lastHeartbeatTick heartbeat].
  rewrite Hdue2. reflexivity.
Qed.

Lemma failed_heartbeat_goes_unnoticed_witness :
  let l := {| heartbeat := with_id 0x705 Sample.message;
              lastHeartbeatTick := 1000 |} in
  let r := loop_body Sample.message (Sample.env 1100) l Sample.congested in
  appended Sample.congested (snd r) =
    [EvSemaphoreWait 10; EvHeartbeat (with_id 0x705 Sample.message) false;
     EvActivateNotification CAN_IT_RX_FIFO0_MSG_PENDING]
  /\ mailboxes (handle_ (snd r)) = mailboxes (handle_ Sample.congested)
  /\ fst r = {| heartbeat := with_id 0x705 Sample.message;
                lastHeartbeatTick := 1100 |}
  /\ heartbeats
       (appended Sample.started
          (snd (loop_body Sample.message (Sample.env 1200) (fst r) Sample.started)))
     = [with_id 0x705 Sample.message].
Proof.
  cbv zeta.
  apply (failed_heartbeat_goes_unnoticed Sample.message (Sample.env 1100)
           (Sample.env 1200)
           {| heartbeat := with_id 0x705 Sample.message;
              lastHeartbeatTick := 1000 |} Sample.congested Sample.started).
  - reflexivity.
  - vm_compute. discriminate.
  - reflexivity.
  - reflexivity.
Defined.

(** The completion and abort callbacks leave the object as it is: the
    outcome of a transmission reaches no state the thread reads. *)
Lemma tx_callbacks_do_nothing (o : ODriveCAN) :
  HAL_CAN_TxMailbox0CompleteCallback o = (tt, o)
  /\ HAL_CAN_TxMailbox1CompleteCallback o = (tt, o)
  /\ HAL_CAN_TxMailbox2CompleteCallback o = (tt, o)
  /\ HAL_CAN_TxMailbox0AbortCallback o = (tt, o)
  /\ HAL_CAN_TxMailbox1AbortCallback o = (tt, o)
  /\ HAL_CAN_TxMailbox2AbortCallback o = (tt, o).
Proof. repeat split. Qed.

(** * Further properties of the driver *)

(** ** [read] *)

Lemma read_control uninit rxmsg o :
  let h' := handle_ (snd (read uninit rxmsg o)) in
  same_control (handle_ o) h' /\ mailboxes h' = mailboxes (handle_ o).
Proof.
  unfold read, HAL_CAN_GetRxFifoFillLevel, HAL_CAN_GetRxMessage, same_control.
  destruct (operational (handle_ o)); simpl;
    [|repeat split; reflexivity || apply Nat.le_refl].
  destruct (fifo0 (handle_ o)) as [|[hd d] q] eqn:E0; simpl.
  - destruct (fifo1 (handle_ o)) as [|[hd d] q] eqn:E1; simpl;
      rewrite ?E0, ?E1; simpl; repeat split; auto with arith.
  - rewrite ?E0; simpl; repeat split; auto with arith.
Qed.

(** X1. With nothing to read -- both FIFOs empty, or the peripheral not
    initialised -- [read] returns [false] and leaves the object and the
    payload buffer as they were, but still overwrites the identifier, the
    extended flag and the length of [rxmsg] from its uninitialised
    header. *)
Theorem read_nothing_pending (uninit : CAN_RxHeaderTypeDef)
        (rxmsg : CAN_message_t) (o : ODriveCAN) :
  inbox (handle_ o) = [] ->
  read uninit rxmsg o =
    (false,
     {| id := if negb (rx_IDE uninit =? 0) then rx_ExtId uninit
              else rx_StdId uninit;
        isExt := negb (rx_IDE uninit =? 0);
        len := u8 (rx_DLC uninit);
        buf := buf rxmsg |},
     o).
Proof.
  intros H. unfold read, inbox, HAL_CAN_GetRxFifoFillLevel in *.
  destruct (operational (handle_ o)).
  - apply app_eq_nil in H. destruct H as [E0 E1]. rewrite E0, E1. simpl.
    destruct o; reflexivity.
  - simpl. destruct o; reflexivity.
Qed.

Lemma read_nothing_pending_witness :
  read Sample.foreign_heartbeat_header Sample.message Sample.started =
    (false,
     {| id := 0x705; isExt := false; len := 8; buf := buf Sample.message |},
     Sample.started).
Proof.
  apply (read_nothing_pending Sample.foreign_heartbeat_header Sample.message
           Sample.started).
  reflexivity.
Defined.

(** [read] serves FIFO 0 before FIFO 1 and takes the oldest frame: with
    a frame in FIFO 0 it returns that frame and leaves FIFO 1 alone; only
    with FIFO 0 empty does it take the head of FIFO 1.  Either way the
    transmit mailboxes are not touched. *)
Lemma read_fifo0_first (uninit : CAN_RxHeaderTypeDef)
        (rxmsg : CAN_message_t) (o : ODriveCAN)
        (fr : CAN_RxHeaderTypeDef * list Z)
        (q : list (CAN_RxHeaderTypeDef * list Z)) :
  operational (handle_ o) = true ->
  (fifo0 (handle_ o) = fr :: q ->
   read uninit rxmsg o =
     (true, message_of fr, with_handle (with_fifo0 q (handle_ o)) o))
  /\ (fifo0 (handle_ o) = [] -> fifo1 (handle_ o) = fr :: q ->
      read uninit rxmsg o =
        (true, message_of fr, with_handle (with_fifo1 q (handle_ o)) o)).
Proof.
  intros Hop. unfold read, HAL_CAN_GetRxFifoFillLevel, HAL_CAN_GetRxMessage.
  rewrite Hop. destruct fr as [hd d]. split.
  - intros E0. rewrite E0. reflexivity.
  - intros E0 E1. rewrite E0, E1. reflexivity.
Qed.

Lemma read_fifo0_first_witness :
  read Sample.regular_header Sample.message Sample.with_both =
    (true,
     message_of (Sample.foreign_heartbeat_header, Sample.foreign_serial),
     with_handle
       (with_fifo0 [(Sample.regular_header, Sample.regular_data)]
          (handle_ Sample.with_both)) Sample.with_both).
Proof.
  apply (proj1 (read_fifo0_first Sample.regular_header Sample.message
                  Sample.with_both
                  (Sample.foreign_heartbeat_header, Sample.foreign_serial)
                  [(Sample.regular_header, Sample.regular_data)]
                  eq_refl)).
  reflexivity.
Defined.

(** ** [write] and the transmit mailboxes *)

Lemma free_level_nonneg h : 0 <= HAL_CAN_GetTxMailboxesFreeLevel h.
Proof.
  unfold HAL_CAN_GetTxMailboxesFreeLevel. destruct (operational h); lia.
Qed.

Lemma store_keeps_occupied {A} (l : list (option A)) i x j f :
  first_empty l = Some i ->
  nth_error l j = Some (Some f) ->
  nth_error (store i x l) j = Some (Some f).
Proof.
  revert i j. induction l as [|[a|] l IH]; simpl; intros i j Hi Hj.
  - discriminate.
  - destruct (first_empty l) as [k|] eqn:E; simpl in Hi; [|discriminate].
    injection Hi as <-. destruct j as [|j]; simpl in *; [exact Hj|].
    apply IH; [reflexivity|exact Hj].
  - injection Hi as <-. destruct j as [|j]; simpl in *; [discriminate|exact Hj].
Qed.

Lemma write_free_level uninit txmsg o :
  HAL_CAN_GetTxMailboxesFreeLevel (handle_ (snd (write uninit txmsg o))) =
    Z.max 0 (HAL_CAN_GetTxMailboxesFreeLevel (handle_ o) - 1).
Proof.
  destruct (Z_lt_le_dec 0 (HAL_CAN_GetTxMailboxesFreeLevel (handle_ o))) as [H|H].
  - destruct (write_queued uninit txmsg o H) as [i [Hi Hw]]. rewrite Hw.
    destruct (free_level_first_empty _ H) as [Hop _].
    unfold HAL_CAN_GetTxMailboxesFreeLevel in *. simpl.
    unfold operational in *. simpl. rewrite Hop in *.
    pose proof (count_empty_store (mailboxes (handle_ o)) i
                  (tx_header txmsg, buf txmsg) Hi). lia.
  - rewrite (write_dropped uninit txmsg o H). simpl.
    pose proof (free_level_nonneg (handle_ o)). lia.
Qed.

(** X2. [write] uses at most one transmit mailbox and never disturbs a
    frame that is still waiting in one: every occupied mailbox holds the
    same frame afterwards, the number of free mailboxes goes down by
    exactly one (or stays at zero), and the receive FIFOs, the bit timing,
    the filters, the configuration and the trace are untouched. *)
Theorem write_keeps_pending_frames (uninit : Z) (txmsg : CAN_message_t)
        (o : ODriveCAN) :
  let o' := snd (write uninit txmsg o) in
  (forall j f,
      nth_error (mailboxes (handle_ o)) j = Some (Some f) ->
      nth_error (mailboxes (handle_ o')) j = Some (Some f))
  /\ HAL_CAN_GetTxMailboxesFreeLevel (handle_ o') =
       Z.max 0 (HAL_CAN_GetTxMailboxesFreeLevel (handle_ o) - 1)
  /\ same_but_mailboxes (handle_ o) (handle_ o')
  /\ config_ o' = config_ o
  /\ thread_id_valid_ o' = thread_id_valid_ o
  /\ trace_ o' = trace_ o.
Proof.
  cbv zeta. split; [|split; [apply write_free_level|]].
  - intros j f Hj.
    destruct (Z_lt_le_dec 0 (HAL_CAN_GetTxMailboxesFreeLevel (handle_ o)))
      as [H|H].
    + destruct (write_queued uninit txmsg o H) as [i [Hi Hw]]. rewrite Hw.
      simpl. apply store_keeps_occupied; assumption.
    + rewrite (write_dropped uninit txmsg o H). exact Hj.
  - destruct (write_frame uninit txmsg o) as (h' & Hw & Hs & _).
    rewrite Hw. simpl. repeat split; apply Hs.
Qed.

Lemma write_keeps_pending_frames_witness :
  let o := snd (write 0 (with_id 0x123 Sample.message) Sample.started) in
  nth_error (mailboxes (handle_ (snd (write 0 Sample.message o)))) 0 =
    Some (Some (tx_header (with_id 0x123 Sample.message), buf Sample.message)).
Proof.
  cbv zeta.
  apply (proj1 (write_keeps_pending_frames 0 Sample.message
                  (snd (write 0 (with_id 0x123 Sample.message) Sample.started)))).
  reflexivity.
Defined.

(** X3. Forwarding is faithful up to the remote flag.  When [read] takes a
    frame out of FIFO 0 and [write] finds a free mailbox for it, the
    mailbox receives the frame's payload under the frame's identifier
    (the extended one for an extended frame, the standard one otherwise,
    copied to both identifier fields), with the identifier type normalised
    to [CAN_ID_STD] or [CAN_ID_EXT] and the length taken modulo 256; the
    frame goes out as a data frame whatever the received [RTR] was. *)
Theorem forward_preserves_frame (uninit_header : CAN_RxHeaderTypeDef)
        (uninit_mailbox : Z) (rxmsg : CAN_message_t) (o : ODriveCAN)
        (hd : CAN_RxHeaderTypeDef) (d : list Z)
        (q : list (CAN_RxHeaderTypeDef * list Z)) :
  operational (handle_ o) = true ->
  fifo0 (handle_ o) = (hd, d) :: q ->
  0 < HAL_CAN_GetTxMailboxesFreeLevel (handle_ o) ->
  let r := read uninit_header rxmsg o in
  let w := write uninit_mailbox (snd (fst r)) (snd r) in
  let ext := negb (rx_IDE hd =? 0) in
  let ident := if ext then rx_ExtId hd else rx_StdId hd in
  exists i,
    first_empty (mailboxes (handle_ o)) = Some i
    /\ fst w = Z.shiftl 1 (Z.of_nat i)
    /\ nth_error (mailboxes (handle_ (snd w))) i =
         Some (Some ({| tx_StdId := ident;
                        tx_ExtId := ident;
                        tx_IDE := if ext then CAN_ID_EXT else CAN_ID_STD;
                        tx_RTR := CAN_RTR_DATA;
                        tx_DLC := u8 (rx_DLC hd);
                        tx_TransmitGlobalTime := DISABLE |}, d))
    /\ fifo0 (handle_ (snd w)) = q.
Proof.
  intros Hop E0 Hfree. cbv zeta.
  destruct (read_fifo0_first uninit_header rxmsg o (hd, d) q Hop) as [Hr _].
  rewrite (Hr E0). cbn [fst snd].
  set (o1 := with_handle (with_fifo0 q (handle_ o)) o).
  assert (Hfree1 : 0 < HAL_CAN_GetTxMailboxesFreeLevel (handle_ o1)).
  { unfold HAL_CAN_GetTxMailboxesFreeLevel, operational in *. simpl.
    exact Hfree. }
  destruct (write_queued uninit_mailbox (message_of (hd, d)) o1 Hfree1)
    as [i [Hi Hw]].
  exists i. rewrite Hw. simpl. split; [exact Hi|]. split; [reflexivity|].
  split; [|reflexivity].
  apply (nth_store (mailboxes (handle_ o)) i
           (tx_header (message_of (hd, d)), d)). exact Hi.
Qed.

Lemma forward_preserves_frame_witness :
  let r := read Sample.regular_header Sample.message Sample.with_regular in
  let w := write 0 (snd (fst r)) (snd r) in
  fst w = 1
  /\ nth_error (mailboxes (handle_ (snd w))) 0 =
       Some (Some ({| tx_StdId := 0x123; tx_ExtId := 0x123;
                      tx_IDE := CAN_ID_STD; tx_RTR := CAN_RTR_DATA;
                      tx_DLC := 2; tx_TransmitGlobalTime := DISABLE |},
                   Sample.regular_data)).
Proof.
  cbv zeta.
  destruct (forward_preserves_frame Sample.regular_header 0 Sample.message
              Sample.with_regular Sample.regular_header Sample.regular_data [])
    as (i & Hi & Hf & Hn & _).
  - reflexivity.
  - reflexivity.
  - vm_compute. reflexivity.
  - vm_compute in Hi. injection Hi as <-. split; [exact Hf|exact Hn].
Defined.

(** ** The transmit budget of one pass *)

Lemma budget_flags_closed n : forall k,
  0 <= k ->
  budget_flags n k =
    repeat true (Nat.min n (Z.to_nat k)) ++ repeat false (n - Z.to_nat k).
Proof.
  induction n as [|n IH]; intros k Hk; [reflexivity|].
  simpl budget_flags. rewrite IH by lia.
  destruct (Z.ltb_spec 0 k) as [H|H].
  - replace (Z.to_nat k) with (S (Z.to_nat (Z.max 0 (k - 1)))) by lia.
    reflexivity.
  - replace k with 0 by lia. simpl. rewrite Nat.min_0_r, Nat.sub_0_r. reflexivity.
Qed.

Lemma write_at_budget site uninit txmsg o :
  exists h',
    write_at site uninit txmsg o =
      (tt, emit (site txmsg (0 <? HAL_CAN_GetTxMailboxesFreeLevel (handle_ o)))
             (with_handle h' o))
    /\ same_but_mailboxes (handle_ o) h'
    /\ HAL_CAN_GetTxMailboxesFreeLevel h' =
         Z.max 0 (HAL_CAN_GetTxMailboxesFreeLevel (handle_ o) - 1).
Proof.
  destruct (write_frame uninit txmsg o) as [h' [Hw [Hs _]]].
  pose proof (write_free_level uninit txmsg o) as Hf. rewrite Hw in Hf.
  exists h'. split; [|split; [exact Hs|exact Hf]].
  unfold write_at, bind, get, modify.
  destruct (write uninit txmsg o) as [r o'] eqn:E. simpl in Hw. subst o'.
  reflexivity.
Qed.

Lemma drain_budget fuel env : forall rxmsg o,
  fifo_depth_ok (handle_ o) ->
  (length (inbox (handle_ o)) <= fuel)%nat ->
  exists evs o',
    drain fuel env rxmsg o = (tt, o')
    /\ trace_ o' = trace_ o ++ evs
    /\ queued_flags evs =
         budget_flags (length (inbox (handle_ o)))
           (HAL_CAN_GetTxMailboxesFreeLevel (handle_ o))
    /\ HAL_CAN_GetTxMailboxesFreeLevel (handle_ o') =
         Z.max 0 (HAL_CAN_GetTxMailboxesFreeLevel (handle_ o)
                  - Z.of_nat (length (inbox (handle_ o)))).
Proof.
  induction fuel as [|fuel IH]; intros rxmsg o Hd Hf.
  - exists [], o.
    assert (E : inbox (handle_ o) = [])
      by (destruct (inbox (handle_ o)); [reflexivity|simpl in Hf; lia]).
    rewrite app_nil_r, E. simpl.
    pose proof (free_level_nonneg (handle_ o)).
    repeat split; try reflexivity. lia.
  - rewrite drain_unfold, available_inbox by exact Hd. cbn [fst].
    destruct (inbox (handle_ o)) as [|fr rest] eqn:E.
    + exists [], o. rewrite app_nil_r. simpl.
      pose proof (free_level_nonneg (handle_ o)).
      repeat split; try reflexivity. lia.
    + replace (Z.of_nat (length (fr :: rest)) =? 0) with false
        by (symmetry; apply Z.eqb_neq; simpl length; lia).
      destruct (read_inbox (stack_header env) rxmsg o fr rest E)
        as (h1 & Hr & Hin1 & Hmb1 & Hst1 & _).
      pose proof (read_shrinks (stack_header env) rxmsg o) as Hsh.
      rewrite Hr in Hsh |- *. simpl in Hsh. cbn [fst snd].
      destruct Hsh as (Hl0 & Hl1 & _).
      assert (Hfree1 : HAL_CAN_GetTxMailboxesFreeLevel h1 =
                       HAL_CAN_GetTxMailboxesFreeLevel (handle_ o)).
      { unfold HAL_CAN_GetTxMailboxesFreeLevel, operational.
        rewrite Hmb1, Hst1. reflexivity. }
      destruct (write_at_budget EvForward (stack_mailbox env) (message_of fr)
                  (with_handle h1 o)) as (h2 & Hw & Hs2 & Hfree2).
      rewrite Hw. cbn [snd]. simpl in Hs2, Hfree2. simpl handle_.
      rewrite Hfree1 in *.
      destruct (inbox_same_but_mailboxes _ _ Hs2) as [Hin2 Hd2].
      set (k := HAL_CAN_GetTxMailboxesFreeLevel (handle_ o)) in *.
      set (o2 := emit (EvForward (message_of fr) (0 <? k))
                   (with_handle h2 (with_handle h1 o))).
      assert (Hd1 : fifo_depth_ok h1)
        by (destruct Hd; split; eapply Nat.le_trans; eassumption).
      destruct (IH (message_of fr) o2) as (evs & o' & Hdr & Htr & Hq & Hfl).
      { simpl. apply Hd2, Hd1. }
      { simpl. rewrite Hin2, Hin1. simpl in Hf. lia. }
      simpl handle_ in Hq, Hfl. rewrite Hin2, Hin1, Hfree2 in Hq, Hfl.
      exists (EvForward (message_of fr) (0 <? k) :: evs), o'.
      split; [exact Hdr|].
      split; [rewrite Htr; simpl; rewrite <- app_assoc; reflexivity|].
      split; [simpl; rewrite Hq; reflexivity|].
      rewrite Hfl. simpl length. lia.
Qed.

(** X4. The frames forwarded in a pass and the heartbeat of that pass share
    the transmit mailboxes, and the heartbeat comes last.  Provided no
    transmission completes and no further frame arrives while the pass
    runs (a pass is one step of the model): with [n] frames pending and
    [k] mailboxes free at the start of the pass, the first [min n k]
    frames are queued and the others dropped; a due heartbeat is queued
    only if [n < k], so it is dropped whenever the pending frames are at
    least as many as the free mailboxes. *)
Theorem heartbeat_starved_by_forwarding (default_message : CAN_message_t)
        (env : IterEnv) (l : locals) (o : ODriveCAN) :
  fifo_depth_ok (handle_ o) ->
  heartbeat_due (u32 (now_tick env)) (lastHeartbeatTick l) = true ->
  let n := length (inbox (handle_ o)) in
  let k := HAL_CAN_GetTxMailboxesFreeLevel (handle_ o) in
  exists fw,
    appended o (snd (loop_body default_message env l o)) =
      EvSemaphoreWait 10 :: fw
        ++ [EvHeartbeat (heartbeat l) (Z.of_nat n <? k);
            EvActivateNotification CAN_IT_RX_FIFO0_MSG_PENDING]
    /\ forallb is_forward fw = true
    /\ queued_flags fw =
         repeat true (Nat.min n (Z.to_nat k)) ++ repeat false (n - Z.to_nat k).
Proof.
  intros Hd Hdue. cbv zeta.
  destruct (loop_body_shape default_message env l o)
    as (evs & o1 & o' & Hdr & Ht1 & Hfw & Hlb & Ht' & _).
  destruct (drain_budget (pending (handle_ o)) env default_message
              (emit (EvSemaphoreWait SEM_WAIT) o) Hd (inbox_le_pending _))
    as (evs2 & o2 & Hdr2 & Ht2 & Hq & Hfl).
  rewrite Hdr in Hdr2. injection Hdr2 as <-.
  simpl in Ht2, Hq, Hfl. rewrite Ht1 in Ht2.
  change (trace_ o ++ EvSemaphoreWait SEM_WAIT :: evs)
    with (trace_ o ++ [EvSemaphoreWait SEM_WAIT] ++ evs) in Ht2.
  rewrite app_assoc in Ht2. apply app_inv_head in Ht2. subst evs2.
  pose proof (free_level_nonneg (handle_ o)) as Hk.
  exists evs. split; [|split; [exact Hfw|]].
  - apply appended_app. rewrite Hlb. cbn [snd]. rewrite Ht', Ht1.
    unfold tick_events. rewrite Hdue, Hfl, <- app_assoc.
    replace (0 <? Z.max 0 (HAL_CAN_GetTxMailboxesFreeLevel (handle_ o)
                           - Z.of_nat (length (inbox (handle_ o)))))
      with (Z.of_nat (length (inbox (handle_ o)))
            <? HAL_CAN_GetTxMailboxesFreeLevel (handle_ o));
      [reflexivity|].
    destruct (Z.ltb_spec (Z.of_nat (length (inbox (handle_ o))))
                (HAL_CAN_GetTxMailboxesFreeLevel (handle_ o)));
      symmetry; [apply Z.ltb_lt|apply Z.ltb_ge]; lia.
  - rewrite Hq. apply budget_flags_closed. exact Hk.
Qed.

Lemma heartbeat_starved_by_forwarding_witness :
  exists fw,
    appended Sample.crowded
      (snd (loop_body Sample.message (Sample.env 1100)
              {| heartbeat := with_id 0x705 Sample.message;
                 lastHeartbeatTick := 1000 |} Sample.crowded)) =
      EvSemaphoreWait 10 :: fw
        ++ [EvHeartbeat (with_id 0x705 Sample.message) false;
            EvActivateNotification CAN_IT_RX_FIFO0_MSG_PENDING]
    /\ queued_flags fw = [true; true; true].
Proof.
  destruct (heartbeat_starved_by_forwarding Sample.message (Sample.env 1100)
              {| heartbeat := with_id 0x705 Sample.message;
                 lastHeartbeatTick := 1000 |} Sample.crowded)
    as (fw & Ha & _ & Hq).
  - vm_compute. lia.
  - reflexivity.
  - exists fw. split; [exact Ha|exact Hq].
Defined.

(** ** What a pass leaves alone *)

Lemma same_control_refl h : same_control h h.
Proof. unfold same_control. repeat split; auto with arith. Qed.

Lemma same_control_trans h1 h2 h3 :
  same_control h1 h2 -> same_control h2 h3 -> same_control h1 h3.
Proof.
  unfold same_control.
  intros (A1 & A2 & A3 & A4 & A5 & A6) (B1 & B2 & B3 & B4 & B5 & B6).
  repeat split; try congruence; eapply Nat.le_trans; eassumption.
Qed.

Lemma same_but_mailboxes_control h h' :
  same_but_mailboxes h h' -> same_control h h'.
Proof.
  intros (A1 & A2 & A3 & A4 & A5 & A6). unfold same_control.
  rewrite A1, A2, A3, A4, A5, A6. repeat split; auto with arith.
Qed.

Lemma drain_control fuel env : forall rxmsg o,
  same_control (handle_ o) (handle_ (snd (drain fuel env rxmsg o))).
Proof.
  induction fuel as [|fuel IH]; intros rxmsg o.
  - apply same_control_refl.
  - rewrite drain_unfold.
    destruct (fst (available o) =? 0); [apply same_control_refl|].
    cbv zeta.
    pose proof (read_control (stack_header env) rxmsg o) as [Hrc _].
    destruct (read_with_handle (stack_header env) rxmsg o) as [h1 Hr].
    rewrite Hr in Hrc |- *. simpl in Hrc.
    set (m := snd (fst (read (stack_header env) rxmsg o))).
    destruct (write_at_frame EvForward (stack_mailbox env) m (with_handle h1 o))
      as (h2 & Hw & Hs & _).
    rewrite Hw. cbn [snd]. simpl in Hs.
    eapply same_control_trans; [exact Hrc|].
    eapply same_control_trans; [apply same_but_mailboxes_control; exact Hs|].
    set (o2 := emit _ _). change h2 with (handle_ o2). apply IH.
Qed.

(** A pass keeps the bit timing, the HAL state and the filters, adds no
    frame to a FIFO, and changes the interrupt enables only by setting the
    FIFO 0 notification when the HAL accepts that. *)
Lemma loop_body_control default_message env l o :
  let o' := snd (loop_body default_message env l o) in
  Prescaler (handle_ o') = Prescaler (handle_ o)
  /\ State (handle_ o') = State (handle_ o)
  /\ filters (handle_ o') = filters (handle_ o)
  /\ (length (fifo0 (handle_ o')) <= length (fifo0 (handle_ o)))%nat
  /\ (length (fifo1 (handle_ o')) <= length (fifo1 (handle_ o)))%nat
  /\ IER (handle_ o') =
       (if status_eqb (notify_status env) HAL_OK
        then Z.lor (IER (handle_ o)) CAN_IT_RX_FIFO0_MSG_PENDING
        else IER (handle_ o))
  /\ config_ o' = config_ o
  /\ thread_id_valid_ o' = thread_id_valid_ o.
Proof.
  cbv zeta.
  destruct (loop_body_shape default_message env l o)
    as (evs & o1 & o' & Hdr & _ & _ & Hlb & _ & Hc & Hv & _).
  pose proof (drain_control (pending (handle_ o)) env default_message
                (emit (EvSemaphoreWait SEM_WAIT) o)) as Hdc.
  rewrite Hdr in Hdc. simpl in Hdc.
  rewrite Hlb. cbn [snd].
  assert (Hs : exists h2, same_control (handle_ o1) h2
                          /\ handle_ o' =
                             snd (HAL_CAN_ActivateNotification (notify_status env)
                                    h2 CAN_IT_RX_FIFO0_MSG_PENDING)).
  { revert Hlb. unfold loop_body, bind, modify, get, ret, hal. cbn [fst snd].
    change (handle_ (emit (EvSemaphoreWait SEM_WAIT) o)) with (handle_ o).
    rewrite Hdr.
    destruct (heartbeat_due (u32 (now_tick env)) (lastHeartbeatTick l)).
    - destruct (write_at_frame EvHeartbeat (stack_mailbox env) (heartbeat l) o1)
        as (h2 & Hw & Hs & _).
      rewrite Hw. intros Hlb. apply (f_equal snd) in Hlb. cbn [snd] in Hlb.
      subst o'. exists h2.
      split; [apply same_but_mailboxes_control; exact Hs|reflexivity].
    - intros Hlb. apply (f_equal snd) in Hlb. cbn [snd] in Hlb.
      subst o'. exists (handle_ o1).
      split; [apply same_control_refl|reflexivity]. }
  destruct Hs as (h2 & Hs2 & Hh).
  pose proof (same_control_trans _ _ _ Hdc Hs2) as (A1 & A2 & A3 & A4 & A5 & A6).
  rewrite Hh. unfold HAL_CAN_ActivateNotification. cbn [snd].
  destruct (status_eqb (notify_status env) HAL_OK); simpl;
    rewrite ?A4; repeat split; assumption.
Qed.

(** ** Invariants of a running server *)

Lemma set_baud_rate_cases baudRate o :
  (exists p, In (baudRate, p) baud_table
             /\ snd (set_baud_rate baudRate o) =
                with_config {| baud := baudRate; node_id := node_id (config_ o) |}
                  (with_handle (with_Prescaler p (handle_ o)) o))
  \/ (~ In baudRate (map fst baud_table) /\ snd (set_baud_rate baudRate o) = o).
Proof.
  unfold set_baud_rate, baud_table.
  destruct (Z.eqb_spec baudRate CAN_BAUD_125K) as [->|N1];
    [left; exists 16; split; [simpl; auto|reflexivity]|].
  destruct (Z.eqb_spec baudRate CAN_BAUD_250K) as [->|N2];
    [left; exists 8; split; [simpl; auto|reflexivity]|].
  destruct (Z.eqb_spec baudRate CAN_BAUD_500K) as [->|N3];
    [left; exists 4; split; [simpl; auto|reflexivity]|].
  destruct (Z.eqb_spec baudRate CAN_BAUD_1000K) as [->|N4];
    [left; exists 2; split; [simpl; auto 6|reflexivity]|].
  right. split; [|reflexivity].
  simpl. intros [H|[H|[H|[H|[]]]]]; congruence.
Qed.

Lemma baud_table_timing b p :
  In (b, p) baud_table -> CAN_CLOCK = 21 * (p * b).
Proof.
  simpl. intros [H|[H|[H|[H|[]]]]]; injection H as <- <-; reflexivity.
Qed.

Lemma set_baud_rate_timing baudRate o :
  In baudRate (map fst baud_table) \/ timing_consistent o ->
  timing_consistent (snd (set_baud_rate baudRate o)).
Proof.
  intros H.
  destruct (set_baud_rate_cases baudRate o) as [(p & Hin & E)|[Hnot E]];
    rewrite E.
  - unfold timing_consistent. simpl. apply baud_table_timing. exact Hin.
  - destruct H as [H|H]; [contradiction|exact H].
Qed.

Lemma set_baud_rate_control baudRate o :
  let o' := snd (set_baud_rate baudRate o) in
  State (handle_ o') = State (handle_ o)
  /\ filters (handle_ o') = filters (handle_ o)
  /\ fifo0 (handle_ o') = fifo0 (handle_ o)
  /\ fifo1 (handle_ o') = fifo1 (handle_ o)
  /\ mailboxes (handle_ o') = mailboxes (handle_ o)
  /\ IER (handle_ o') = IER (handle_ o)
  /\ node_id (config_ o') = node_id (config_ o)
  /\ thread_id_valid_ o' = thread_id_valid_ o
  /\ trace_ o' = trace_ o.
Proof.
  cbv zeta.
  destruct (set_baud_rate_cases baudRate o) as [(p & _ & E)|[_ E]];
    rewrite E; repeat split.
Qed.

Lemma on_receive_control hd data o :
  let o' := snd (on_receive hd data o) in
  Prescaler (handle_ o') = Prescaler (handle_ o)
  /\ State (handle_ o') = State (handle_ o)
  /\ filters (handle_ o') = filters (handle_ o)
  /\ mailboxes (handle_ o') = mailboxes (handle_ o)
  /\ config_ o' = config_ o
  /\ thread_id_valid_ o' = thread_id_valid_ o
  /\ (forall fs, filters (handle_ o) = server_filter :: fs ->
                 fifo1 (handle_ o') = fifo1 (handle_ o)).
Proof.
  cbv zeta.
  unfold on_receive, bind, modify, get, ret, HAL_CAN_RxFifo0MsgPendingCallback.
  cbn [fst snd].
  set (h1 := bus_receive hd data (handle_ o)).
  assert (H1 : Prescaler h1 = Prescaler (handle_ o)
               /\ State h1 = State (handle_ o)
               /\ filters h1 = filters (handle_ o)
               /\ mailboxes h1 = mailboxes (handle_ o)
               /\ (forall fs, filters (handle_ o) = server_filter :: fs ->
                              fifo1 h1 = fifo1 (handle_ o))).
  { unfold h1, bus_receive.
    destruct (route (filters (handle_ o)) (rx_bits hd)) as [f|] eqn:R.
    - destruct (f =? CAN_RX_FIFO0) eqn:F; simpl; repeat split.
      intros fs Hfs. rewrite Hfs, route_server_filter in R.
      injection R as <-. discriminate F.
    - repeat split. }
  destruct H1 as (A1 & A2 & A3 & A4 & A5).
  change (handle_ (with_handle h1 o)) with h1.
  destruct (negb _ && negb _).
  - unfold HAL_CAN_DeactivateNotification. simpl.
    destruct (operational h1); simpl; repeat split; assumption || reflexivity.
  - simpl. repeat split; assumption || reflexivity.
Qed.

Lemma on_tx_complete_control n o :
  let o' := snd (on_tx_complete n o) in
  Prescaler (handle_ o') = Prescaler (handle_ o)
  /\ State (handle_ o') = State (handle_ o)
  /\ filters (handle_ o') = filters (handle_ o)
  /\ fifo1 (handle_ o') = fifo1 (handle_ o)
  /\ config_ o' = config_ o
  /\ thread_id_valid_ o' = thread_id_valid_ o.
Proof. destruct n as [|[|n]]; repeat split. Qed.

(** One step of a run keeps the HAL state, the filters and the validity
    flag of the thread; keeps a consistent bit timing consistent; and,
    when the first filter bank is the server's, puts nothing into
    FIFO 1. *)
Lemma step_invariants default_message a l o :
  let o' := snd (step default_message a l o) in
  State (handle_ o') = State (handle_ o)
  /\ filters (handle_ o') = filters (handle_ o)
  /\ thread_id_valid_ o' = thread_id_valid_ o
  /\ (timing_consistent o -> timing_consistent o')
  /\ (forall fs, filters (handle_ o) = server_filter :: fs ->
                 fifo1 (handle_ o) = [] -> fifo1 (handle_ o') = []).
Proof.
  cbv zeta. destruct a as [env|n|b|hd data|n]; cbn [step].
  - pose proof (loop_body_control default_message env l o)
      as (A1 & A2 & A3 & _ & A5 & _ & A7 & A8).
    split; [exact A2|]. split; [exact A3|]. split; [exact A8|].
    split.
    + unfold timing_consistent. rewrite A1, A7. auto.
    + intros fs _ E. rewrite E in A5. simpl in A5.
      destruct (fifo1 _); [reflexivity|simpl in A5; lia].
  - simpl. repeat split; auto.
  - unfold bind.
    pose proof (set_baud_rate_control b o) as (A1 & A2 & _ & A4 & _ & _ & _ & A8 & _).
    pose proof (set_baud_rate_timing b o) as Ht.
    destruct (set_baud_rate b o) as [[] o']. simpl in *.
    split; [exact A1|]. split; [exact A2|]. split; [exact A8|].
    split; [auto|]. intros fs _ E. rewrite A4. exact E.
  - unfold bind.
    pose proof (on_receive_control hd data o) as (A1 & A2 & A3 & _ & A5 & A6 & A7).
    destruct (on_receive hd data o) as [[] o']. simpl in *.
    split; [exact A2|]. split; [exact A3|]. split; [exact A6|].
    split.
    + unfold timing_consistent. rewrite A1, A5. auto.
    + intros fs Hfs E. rewrite (A7 fs Hfs). exact E.
  - unfold bind.
    pose proof (on_tx_complete_control n o) as (A1 & A2 & A3 & A4 & A5 & A6).
    destruct (on_tx_complete n o) as [[] o']. simpl in *.
    split; [exact A2|]. split; [exact A3|]. split; [exact A6|].
    split.
    + unfold timing_consistent. rewrite A1, A5. auto.
    + intros fs _ E. rewrite A4. exact E.
Qed.

Lemma run_invariants default_message acts : forall l o,
  let o' := snd (run default_message acts l o) in
  State (handle_ o') = State (handle_ o)
  /\ filters (handle_ o') = filters (handle_ o)
  /\ thread_id_valid_ o' = thread_id_valid_ o
  /\ (timing_consistent o -> timing_consistent o')
  /\ (forall fs, filters (handle_ o) = server_filter :: fs ->
                 fifo1 (handle_ o) = [] -> fifo1 (handle_ o') = []).
Proof.
  induction acts as [|a acts IH]; intros l o; cbv zeta.
  - simpl. repeat split; auto.
  - simpl. unfold bind.
    pose proof (step_invariants default_message a l o) as (A1 & A2 & A3 & A4 & A5).
    destruct (step default_message a l o) as [l1 o1]. cbn [snd] in *.
    pose proof (IH l1 o1) as (B1 & B2 & B3 & B4 & B5). cbv zeta in *.
    split; [congruence|]. split; [congruence|]. split; [congruence|].
    split; [auto|].
    intros fs Hfs E. apply (B5 fs); [congruence|]. apply (A5 fs); assumption.
Qed.

Lemma can_server_thread_run default_message tick acts o :
  can_server_thread default_message tick acts o =
    run default_message acts
      {| heartbeat :=
           with_id (u32 (HEARTBEAT_BASE + node_id (config_ o))) default_message;
         lastHeartbeatTick := u32 tick |} o.
Proof. reflexivity. Qed.

(** X5. A running server never stops or reconfigures the peripheral and
    never clears its own validity flag: over any run of the thread --
    passes of the loop, setter calls, frames arriving, transmissions
    completing -- the HAL state, the installed filters and
    [thread_id_valid_] stay what they were at thread entry.  (The reset of
    the flag after [can_server_thread] in the wrapper is never reached: the
    loop has no exit.) *)
Theorem server_keeps_bringup (default_message : CAN_message_t) (tick : Z)
        (acts : list action) (o : ODriveCAN) :
  let o' := snd (can_server_thread default_message tick acts o) in
  State (handle_ o') = State (handle_ o)
  /\ filters (handle_ o') = filters (handle_ o)
  /\ thread_id_valid_ o' = thread_id_valid_ o.
Proof.
  cbv zeta. rewrite can_server_thread_run.
  pose proof (run_invariants default_message acts
                {| heartbeat :=
                     with_id (u32 (HEARTBEAT_BASE + node_id (config_ o)))
                       default_message;
                   lastHeartbeatTick := u32 tick |} o) as (A1 & A2 & A3 & _).
  repeat split; assumption.
Qed.

(** X6. The bit timing stays consistent with the stored rate.  If the
    prescaler and [config_.baud] give 21 time quanta per bit at the 42 MHz
    clock when the thread is entered, they still do after any run,
    including runs in which [set_baud_rate] is called with accepted or
    rejected rates. *)
Theorem timing_stays_consistent (default_message : CAN_message_t) (tick : Z)
        (acts : list action) (o : ODriveCAN) :
  timing_consistent o ->
  timing_consistent (snd (can_server_thread default_message tick acts o)).
Proof.
  intros H. rewrite can_server_thread_run.
  apply (run_invariants default_message acts _ o). exact H.
Qed.

Lemma timing_stays_consistent_witness :
  timing_consistent
    (snd (can_server_thread Sample.message 1000
            [Iterate (Sample.env 1100); CallSetBaudRate 300000;
             CallSetBaudRate 1000000; CallSetBaudRate 7;
             Iterate (Sample.env 1200)] Sample.started)).
Proof.
  apply (timing_stays_consistent Sample.message 1000
           [Iterate (Sample.env 1100); CallSetBaudRate 300000;
            CallSetBaudRate 1000000; CallSetBaudRate 7;
            Iterate (Sample.env 1200)] Sample.started).
  reflexivity.
Defined.

(** X7. FIFO 1 is never used.  When the accept-all filter that
    [start_can_server] configures is the only filter bank installed and
    FIFO 1 is empty at thread entry, FIFO 1 is still empty after any run:
    every frame goes to FIFO 0 and the FIFO 1 branch of [read] is never
    taken. *)
Theorem fifo1_stays_empty (default_message : CAN_message_t) (tick : Z)
        (acts : list action) (o : ODriveCAN) :
  filters (handle_ o) = [server_filter] ->
  fifo1 (handle_ o) = [] ->
  fifo1 (handle_ (snd (can_server_thread default_message tick acts o))) = [].
Proof.
  intros Hfs E. rewrite can_server_thread_run.
  apply (run_invariants default_message acts _ o) with (fs := []); assumption.
Qed.

Lemma fifo1_stays_empty_witness :
  fifo1 (handle_
           (snd (can_server_thread Sample.message 1000
                   [BusReceive Sample.regular_header Sample.regular_data;
                    BusReceive Sample.foreign_heartbeat_header
                      Sample.foreign_serial;
                    Iterate (Sample.env 1100)] Sample.started))) = [].
Proof.
  apply (fifo1_stays_empty Sample.message 1000
           [BusReceive Sample.regular_header Sample.regular_data;
            BusReceive Sample.foreign_heartbeat_header Sample.foreign_serial;
            Iterate (Sample.env 1100)] Sample.started).
  - reflexivity.
  - reflexivity.
Defined.

(** ** Spacing of the heartbeats *)

Lemma step_quiet default_message a l o :
  heartbeats (appended o (snd (step default_message a l o))) = [] ->
  fst (step default_message a l o) = l.
Proof.
  destruct a as [env|n|b|hd data|n]; cbn [step].
  - rewrite loop_body_heartbeats.
    destruct (loop_body_shape default_message env l o)
      as (evs & o1 & o' & _ & _ & _ & Hlb & _).
    rewrite Hlb. cbn [fst]. unfold tick_locals.
    destruct (heartbeat_due _ _); [discriminate|reflexivity].
  - reflexivity.
  - intros _. unfold bind. destruct (set_baud_rate b o) as [[] o']. reflexivity.
  - intros _. unfold bind. destruct (on_receive hd data o) as [[] o'].
    reflexivity.
  - intros _. unfold bind. destruct (on_tx_complete n o) as [[] o'].
    reflexivity.
Qed.

Lemma run_quiet default_message acts : forall l o,
  heartbeats (appended o (snd (run default_message acts l o))) = [] ->
  fst (run default_message acts l o) = l.
Proof.
  induction acts as [|a acts IH]; intros l o; [reflexivity|].
  simpl. unfold bind.
  destruct (step_heartbeat default_message a l o) as (e1 & _ & Ht1 & _).
  pose proof (step_quiet default_message a l o) as Hq.
  destruct (step default_message a l o) as [l1 o1]. cbn [fst snd] in *.
  destruct (run_heartbeat default_message acts l1 o1) as (e2 & _ & Ht2 & _).
  pose proof (IH l1 o1) as IH1.
  rewrite (appended_app _ _ _ Ht2) in IH1.
  rewrite (appended_app _ _ _ Ht1) in Hq.
  assert (Ht : trace_ (snd (run default_message acts l1 o1)) =
               trace_ o ++ (e1 ++ e2))
    by (rewrite Ht2, Ht1, app_assoc; reflexivity).
  rewrite (appended_app _ _ _ Ht), heartbeats_app.
  intros H. apply app_eq_nil in H. destruct H as [H1 H2].
  rewrite (IH1 H2). apply Hq. exact H1.
Qed.

(** X8. Heartbeats are at least one period apart.  If a pass at tick [t1]
    attempts a heartbeat and no heartbeat is attempted during the part of
    the run that follows, then a later pass at tick [t2] attempts the next
    heartbeat exactly when [t2 - t1], modulo 2^32, is at least 100 -- and
    it is again the heartbeat computed at thread entry. *)
Theorem heartbeats_a_period_apart (default_message : CAN_message_t)
        (env1 env2 : IterEnv) (between : list action)
        (l : locals) (o : ODriveCAN) :
  let r1 := loop_body default_message env1 l o in
  let r2 := run default_message between (fst r1) (snd r1) in
  let r3 := loop_body default_message env2 (fst r2) (snd r2) in
  heartbeats (appended o (snd r1)) = [heartbeat l] ->
  heartbeats (appended (snd r1) (snd r2)) = [] ->
  (heartbeats (appended (snd r2) (snd r3)) = [heartbeat l]
   <-> 100 <= u32 (u32 (now_tick env2) - u32 (now_tick env1)))
  /\ (heartbeats (appended (snd r2) (snd r3)) = []
      <-> u32 (u32 (now_tick env2) - u32 (now_tick env1)) < 100).
Proof.
  cbv zeta. intros H1 H2.
  rewrite (run_quiet default_message between _ _ H2).
  rewrite loop_body_heartbeats in H1 |- *.
  destruct (loop_body_shape default_message env1 l o)
    as (evs & o1 & o' & _ & _ & _ & Hlb & _).
  rewrite Hlb. cbn [fst snd]. unfold tick_locals.
  destruct (heartbeat_due (u32 (now_tick env1)) (lastHeartbeatTick l));
    [|discriminate].
  cbn [lastHeartbeatTick heartbeat]. unfold heartbeat_due, HEARTBEAT_PERIOD.
  destruct (Z.leb_spec 100 (u32 (u32 (now_tick env2) - u32 (now_tick env1))))
    as [H|H].
  - split; split; intros; try reflexivity; try lia; discriminate.
  - split; split; intros; try reflexivity; try lia; discriminate.
Qed.

Lemma heartbeats_a_period_apart_witness :
  let l := {| heartbeat := with_id 0x705 Sample.message;
              lastHeartbeatTick := 1000 |} in
  let r1 := loop_body Sample.message (Sample.env 1100) l Sample.started in
  let r2 := run Sample.message
              [BusReceive Sample.regular_header Sample.regular_data;
               Iterate (Sample.env 1150)] (fst r1) (snd r1) in
  let r3 := loop_body Sample.message (Sample.env 1199) (fst r2) (snd r2) in
  heartbeats (appended (snd r2) (snd r3)) = [].
Proof.
  cbv zeta.
  apply (proj2 (heartbeats_a_period_apart Sample.message (Sample.env 1100)
                  (Sample.env 1199)
                  [BusReceive Sample.regular_header Sample.regular_data;
                   Iterate (Sample.env 1150)]
                  {| heartbeat := with_id 0x705 Sample.message;
                     lastHeartbeatTick := 1000 |} Sample.started
                  eq_refl eq_refl)).
  vm_compute. reflexivity.
Defined.

(** ** Node ID and heartbeat identifier *)

(** X9. Whatever value [set_node_id] is called with, a thread entered
    afterwards heartbeats under the standard identifier 0x700 plus that
    value taken modulo 256: an identifier between 0x700 and 0x7FF, which
    fits the 11 bits of a standard frame.  Two node IDs give the same
    heartbeat identifier only if they are equal modulo 256. *)
Theorem heartbeat_id_of_node_id (default_message : CAN_message_t)
        (tick nodeID nodeID' : Z) (o : ODriveCAN) :
  let hb n := heartbeat (fst (thread_entry default_message tick
                                (snd (set_node_id n o)))) in
  id (hb nodeID) = 0x700 + nodeID mod 256
  /\ heartbeat_id (id (hb nodeID)) = true
  /\ 0 <= id (hb nodeID) < 2 ^ 11
  /\ (id (hb nodeID) = id (hb nodeID') <-> nodeID mod 256 = nodeID' mod 256).
Proof.
  cbv zeta. unfold thread_entry, set_node_id, bind, get, ret.
  cbn [fst snd heartbeat id with_id config_ node_id with_config].
  unfold HEARTBEAT_BASE, u8.
  assert (B : forall n, 0 <= n mod 2 ^ 8 < 256)
    by (intros n; apply Z.mod_pos_bound; lia).
  assert (E : forall n, u32 (0x700 + n mod 2 ^ 8) = 0x700 + n mod 256).
  { intros n. pose proof (B n). change (2 ^ 8) with 256 in *.
    apply u32_small. lia. }
  rewrite !E. pose proof (B nodeID) as Hn. change (2 ^ 8) with 256 in Hn.
  split; [reflexivity|]. split.
  - unfold heartbeat_id. apply andb_true_intro. split; apply Z.leb_le; lia.
  - split; [lia|]. split; intros H; lia.
Qed.

(** ** Independence of the two setters *)

(** X10. The two setters act on disjoint parts of the object and commute:
    [set_baud_rate] never changes the node ID, [set_node_id] never changes
    the rate or the prescaler, and calling them in either order gives the
    same object. *)
Theorem setters_commute (baudRate nodeID : Z) (o : ODriveCAN) :
  snd (set_node_id nodeID (snd (set_baud_rate baudRate o))) =
    snd (set_baud_rate baudRate (snd (set_node_id nodeID o)))
  /\ node_id (config_ (snd (set_baud_rate baudRate o))) = node_id (config_ o)
  /\ baud (config_ (snd (set_node_id nodeID o))) = baud (config_ o)
  /\ Prescaler (handle_ (snd (set_node_id nodeID o))) = Prescaler (handle_ o).
Proof.
  split; [|split; [apply set_baud_rate_control|split; reflexivity]].
  unfold set_baud_rate.
  repeat match goal with |- context [if ?b then _ else _] => destruct b end;
    reflexivity.
Qed.

(** ** [start_can_server]: bit timing and partial bring-up *)

Lemma start_can_server_after_baud results o :
  let o0 := snd (set_baud_rate (baud (config_ o)) o) in
  let o' := snd (start_can_server results o) in
  Prescaler (handle_ o') = Prescaler (handle_ o0)
  /\ config_ o' = config_ o0
  /\ mailboxes (handle_ o') = mailboxes (handle_ o0)
  /\ fifo0 (handle_ o') = fifo0 (handle_ o0)
  /\ fifo1 (handle_ o') = fifo1 (handle_ o0).
Proof.
  cbv zeta. unfold start_can_server, bind, get. cbn [fst snd].
  destruct (set_baud_rate (baud (config_ o)) o) as [[] o0]. cbn [snd].
  destruct results as [s1 s2 s3 s4].
  unfold hal, ret, modify. cbn [fst snd r_Init r_ConfigFilter r_Start
    r_ActivateNotification].
  destruct s1; cbn [HAL_CAN_Init status_eqb negb fst snd];
    try (repeat split; reflexivity).
  destruct s2; cbn [HAL_CAN_ConfigFilter status_eqb negb fst snd];
    try (repeat split; reflexivity).
  destruct s3; cbn [HAL_CAN_Start status_eqb negb fst snd];
    try (repeat split; reflexivity).
  destruct s4; cbn [HAL_CAN_ActivateNotification status_eqb negb fst snd];
    repeat split; reflexivity.
Qed.

Lemma set_own_baud_rate_config o :
  config_ (snd (set_baud_rate (baud (config_ o)) o)) = config_ o.
Proof.
  destruct (set_baud_rate_cases (baud (config_ o)) o) as [(p & _ & E)|[_ E]];
    rewrite E; [|reflexivity].
  simpl. destruct (config_ o); reflexivity.
Qed.

(** X11. [start_can_server] applies the configured rate before it touches
    the HAL and does not validate it.  When [config_.baud] is one of the
    four accepted rates the prescaler is the one of that rate after the
    call, whether the bring-up succeeds or fails; when it is not, the
    prescaler is left as it was and the bring-up goes ahead all the same.
    The configuration is unchanged either way, and a bit timing that is
    consistent before the call, or a valid configured rate, gives a
    consistent bit timing after it. *)
Theorem start_can_server_applies_baud (results : HalResults) (o : ODriveCAN) :
  let o' := snd (start_can_server results o) in
  (forall p, In (baud (config_ o), p) baud_table -> Prescaler (handle_ o') = p)
  /\ (~ In (baud (config_ o)) (map fst baud_table) ->
      Prescaler (handle_ o') = Prescaler (handle_ o))
  /\ config_ o' = config_ o
  /\ (In (baud (config_ o)) (map fst baud_table) \/ timing_consistent o ->
      timing_consistent o').
Proof.
  cbv zeta.
  pose proof (start_can_server_after_baud results o) as (A1 & A2 & _).
  cbv zeta in A1, A2.
  pose proof (set_own_baud_rate_config o) as Hc.
  split; [|split; [|split]].
  - intros p Hin. rewrite A1.
    destruct (set_baud_rate_cases (baud (config_ o)) o)
      as [(p' & Hin' & E)|[Hnot E]]; rewrite E.
    + simpl in *.
      destruct Hin as [H|[H|[H|[H|[]]]]];
        destruct Hin' as [H'|[H'|[H'|[H'|[]]]]];
        injection H as Hb <-; injection H' as Hb' <-;
        reflexivity || (exfalso; rewrite <- Hb' in Hb; discriminate Hb).
    + exfalso. apply Hnot. apply in_map_iff. exists (baud (config_ o), p).
      split; [reflexivity|exact Hin].
  - intros Hnot. rewrite A1.
    destruct (set_baud_rate_cases (baud (config_ o)) o)
      as [(p' & Hin' & E)|[_ E]]; rewrite E; [|reflexivity].
    exfalso. apply Hnot. apply in_map_iff. exists (baud (config_ o), p').
    split; [reflexivity|exact Hin'].
  - rewrite A2. exact Hc.
  - intros H. pose proof (set_baud_rate_timing (baud (config_ o)) o H) as Ht.
    unfold timing_consistent in *. rewrite A1, A2. exact Ht.
Qed.

Lemma start_can_server_applies_baud_witness :
  Prescaler (handle_ (snd (start_can_server Sample.timeout_on_start Sample.node)))
  = 8
  /\ Prescaler
       (handle_ (snd (start_can_server Sample.all_ok
                        (with_config {| baud := 300000; node_id := 5 |}
                           Sample.node))))
     = 0
  /\ timing_consistent (snd (start_can_server Sample.timeout_on_start Sample.node)).
Proof.
  split; [|split].
  - apply (proj1 (start_can_server_applies_baud Sample.timeout_on_start
                    Sample.node) 8).
    simpl. right. left. reflexivity.
  - apply (proj1 (proj2 (start_can_server_applies_baud Sample.all_ok
                           (with_config {| baud := 300000; node_id := 5 |}
                              Sample.node)))).
    simpl. intros [H|[H|[H|[H|[]]]]]; discriminate H.
  - apply (proj2 (proj2 (proj2 (start_can_server_applies_baud
                                  Sample.timeout_on_start Sample.node)))).
    left. simpl. right. left. reflexivity.
Defined.


(** ** The FIFO 0 notification *)

Lemma testbit_fifo0_flag n :
  0 <= n -> Z.testbit CAN_IT_RX_FIFO0_MSG_PENDING n = (1 =? n).
Proof. intros H. apply (Z.pow2_bits_eqb 1 n). lia. Qed.

Lemma land_ldiff_flag x m : Z.land (Z.ldiff x m) m = 0.
Proof.
  apply Z.bits_inj'. intros n Hn.
  rewrite Z.land_spec, Z.ldiff_spec, Z.bits_0.
  destruct (Z.testbit x n), (Z.testbit m n); reflexivity.
Qed.

Lemma lor_ldiff_flag x m : Z.lor (Z.ldiff x m) m = Z.lor x m.
Proof.
  apply Z.bits_inj'. intros n Hn.
  rewrite !Z.lor_spec, Z.ldiff_spec.
  destruct (Z.testbit x n), (Z.testbit m n); reflexivity.
Qed.

Lemma lor_flag_set x :
  Z.testbit x 1 = true -> Z.lor x CAN_IT_RX_FIFO0_MSG_PENDING = x.
Proof.
  intros H. apply Z.bits_inj'. intros n Hn.
  rewrite Z.lor_spec, testbit_fifo0_flag by exact Hn.
  destruct (Z.eqb_spec 1 n) as [<-|_].
  - rewrite H. reflexivity.
  - apply orb_false_r.
Qed.

Lemma callback_masks o :
  operational (handle_ o) = true ->
  HAL_CAN_RxFifo0MsgPendingCallback o =
    (tt, emit EvSemaphoreRelease
           (with_handle
              (with_IER (Z.ldiff (IER (handle_ o)) CAN_IT_RX_FIFO0_MSG_PENDING)
                 (handle_ o)) o)).
Proof.
  intros Hop.
  unfold HAL_CAN_RxFifo0MsgPendingCallback, bind, modify,
    HAL_CAN_DeactivateNotification.
  rewrite Hop. reflexivity.
Qed.

(** X13. The receive interrupt masks itself and the loop unmasks it.  On an
    initialised peripheral the FIFO 0 callback releases the semaphore once
    and clears the FIFO 0 message-pending enable, leaving every other
    interrupt enable as it was; the next pass of the loop whose
    notification call succeeds sets the enable again, which restores the
    interrupt enables the callback found. *)
Theorem fifo0_notification_round_trip (default_message : CAN_message_t)
        (env : IterEnv) (l : locals) (o : ODriveCAN) :
  operational (handle_ o) = true ->
  Z.testbit (IER (handle_ o)) 1 = true ->
  notify_status env = HAL_OK ->
  let o1 := snd (HAL_CAN_RxFifo0MsgPendingCallback o) in
  appended o o1 = [EvSemaphoreRelease]
  /\ Z.testbit (IER (handle_ o1)) 1 = false
  /\ (forall n, n <> 1 ->
                Z.testbit (IER (handle_ o1)) n = Z.testbit (IER (handle_ o)) n)
  /\ IER (handle_ (snd (loop_body default_message env l o1))) = IER (handle_ o).
Proof.
  intros Hop Hbit Hst. cbv zeta. rewrite (callback_masks o Hop). cbn [snd].
  split; [apply appended_app; reflexivity|].
  split; [|split].
  - cbn [handle_ emit with_handle with_IER IER].
    rewrite Z.ldiff_spec, Hbit. reflexivity.
  - intros n Hn. cbn [handle_ emit with_handle with_IER IER].
    rewrite Z.ldiff_spec.
    destruct (Z.neg_nonneg_cases n) as [Hneg|Hpos].
    + rewrite !(Z.testbit_neg_r _ n Hneg). reflexivity.
    + rewrite testbit_fifo0_flag by exact Hpos.
      destruct (Z.eqb_spec 1 n) as [E|_]; [congruence|].
      apply andb_true_r.
  - pose proof (loop_body_control default_message env l
                  (emit EvSemaphoreRelease
                     (with_handle
                        (with_IER (Z.ldiff (IER (handle_ o))
                                     CAN_IT_RX_FIFO0_MSG_PENDING)
                           (handle_ o)) o)))
      as (_ & _ & _ & _ & _ & A & _).
    rewrite A, Hst. cbn [status_eqb handle_ emit with_handle with_IER IER].
    rewrite lor_ldiff_flag. apply lor_flag_set.
    exact Hbit.
Qed.

Lemma fifo0_notification_round_trip_witness :
  let o1 := snd (HAL_CAN_RxFifo0MsgPendingCallback Sample.started) in
  IER (handle_ Sample.started) = 0x12
  /\ IER (handle_ o1) = 0x10
  /\ IER (handle_ (snd (loop_body Sample.message (Sample.env 1005)
                          {| heartbeat := with_id 0x705 Sample.message;
                             lastHeartbeatTick := 1000 |} o1))) = 0x12.
Proof.
  cbv zeta. split; [reflexivity|]. split; [reflexivity|].
  apply (fifo0_notification_round_trip Sample.message (Sample.env 1005)
           {| heartbeat := with_id 0x705 Sample.message;
              lastHeartbeatTick := 1000 |} Sample.started);
    reflexivity.
Defined.

Lemma bus_receive_control hd data h :
  IER (bus_receive hd data h) = IER h
  /\ operational (bus_receive hd data h) = operational h.
Proof.
  unfold bus_receive, operational.
  destruct (route (filters h) (rx_bits hd)) as [f|]; [|split; reflexivity].
  destruct (f =? CAN_RX_FIFO0); split; reflexivity.
Qed.

Lemma receive_all_masked frames : forall o,
  Z.land (IER (handle_ o)) CAN_IT_RX_FIFO0_MSG_PENDING = 0 ->
  trace_ (snd (receive_all frames o)) = trace_ o.
Proof.
  induction frames as [|[hd data] frames IH]; intros o H; [reflexivity|].
  simpl receive_all. unfold bind at 1.
  assert (E : on_receive hd data o =
              (tt, with_handle (bus_receive hd data (handle_ o)) o)).
  { unfold on_receive, bind, modify, get. cbn [fst snd].
    change (handle_ (with_handle (bus_receive hd data (handle_ o)) o))
      with (bus_receive hd data (handle_ o)).
    rewrite (proj1 (bus_receive_control hd data (handle_ o))), H.
    reflexivity. }
  rewrite E. rewrite IH; [reflexivity|].
  simpl. rewrite (proj1 (bus_receive_control hd data (handle_ o))). exact H.
Qed.

(** X14. One wake-up per pass at most.  However many frames arrive on an
    initialised peripheral before the server loop runs again, the
    semaphore is released at most once: the first FIFO 0 interrupt masks
    the notification, and only the loop enables it again. *)
Theorem one_release_between_passes
        (frames : list (CAN_RxHeaderTypeDef * list Z)) (o : ODriveCAN) :
  operational (handle_ o) = true ->
  exists evs,
    trace_ (snd (receive_all frames o)) = trace_ o ++ evs
    /\ (releases evs <= 1)%nat.
Proof.
  revert o. induction frames as [|[hd data] frames IH]; intros o Hop.
  - exists []. rewrite app_nil_r. split; [reflexivity|simpl; lia].
  - simpl receive_all. unfold bind at 1.
    destruct (bus_receive_control hd data (handle_ o)) as [Hier Hop1].
    unfold on_receive, bind, modify, get. cbn [fst snd].
    set (o1 := with_handle (bus_receive hd data (handle_ o)) o).
    assert (Hop' : operational (handle_ o1) = true) by (simpl; congruence).
    destruct (negb _ && negb _).
    + rewrite (callback_masks o1 Hop').
      exists [EvSemaphoreRelease]. split; [|simpl; lia].
      rewrite receive_all_masked; [reflexivity|].
      cbn [handle_ emit with_handle with_IER IER]. apply land_ldiff_flag.
    + unfold ret. destruct (IH o1 Hop') as (evs & Ht & Hr).
      exists evs. split; [exact Ht|exact Hr].
Qed.

Lemma one_release_between_passes_witness :
  exists evs,
    trace_ (snd (receive_all
                   [(Sample.regular_header, Sample.regular_data);
                    (Sample.foreign_heartbeat_header, Sample.foreign_serial);
                    (Sample.regular_header, Sample.regular_data)]
                   Sample.started)) = trace_ Sample.started ++ evs
    /\ (releases evs <= 1)%nat.
Proof.
  apply (one_release_between_passes
           [(Sample.regular_header, Sample.regular_data);
            (Sample.foreign_heartbeat_header, Sample.foreign_serial);
            (Sample.regular_header, Sample.regular_data)] Sample.started).
  reflexivity.
Defined.

(** ** [available] as the guard of [read] *)

(** X15. [available] tells exactly whether [read] will deliver a frame.
    When it returns zero, [read] returns [false] and takes nothing; when it
    returns a non-zero count, [read] returns [true] with the oldest pending
    frame, and that result depends neither on the previous content of
    [rxmsg] nor on the uninitialised header.  The drain loop, which calls
    [read] only under that guard, therefore never forwards a frame built
    from uninitialised data. *)
Theorem available_guards_read (uninit : CAN_RxHeaderTypeDef)
        (rxmsg : CAN_message_t) (o : ODriveCAN) :
  fifo_depth_ok (handle_ o) ->
  (fst (available o) = 0 ->
   fst (fst (read uninit rxmsg o)) = false /\ snd (read uninit rxmsg o) = o)
  /\ (fst (available o) <> 0 ->
      exists fr rest,
        inbox (handle_ o) = fr :: rest
        /\ forall uninit' rxmsg',
             fst (read uninit' rxmsg' o) = (true, message_of fr)
             /\ inbox (handle_ (snd (read uninit' rxmsg' o))) = rest).
Proof.
  intros Hd. rewrite available_inbox by exact Hd. cbn [fst].
  destruct (inbox (handle_ o)) as [|fr rest] eqn:E.
  - split; [intros _|intros H; exfalso; apply H; reflexivity].
    unfold read, inbox, HAL_CAN_GetRxFifoFillLevel in *.
    destruct (operational (handle_ o)).
    + apply app_eq_nil in E. destruct E as [E0 E1]. rewrite E0, E1. simpl.
      split; [reflexivity|destruct o; reflexivity].
    + simpl. split; [reflexivity|destruct o; reflexivity].
  - split; [simpl length; intros H; lia|intros _].
    exists fr, rest. split; [reflexivity|]. intros uninit' rxmsg'.
    destruct (read_inbox uninit' rxmsg' o fr rest E) as (h' & Hr & Hin & _).
    rewrite Hr. split; [reflexivity|exact Hin].
Qed.

Lemma available_guards_read_witness :
  (fst (fst (read Sample.regular_header Sample.message Sample.started)) = false
   /\ snd (read Sample.regular_header Sample.message Sample.started)
      = Sample.started)
  /\ exists fr rest,
       inbox (handle_ Sample.with_both) = fr :: rest
       /\ forall uninit' rxmsg',
            fst (read uninit' rxmsg' Sample.with_both) = (true, message_of fr)
            /\ inbox (handle_ (snd (read uninit' rxmsg' Sample.with_both)))
               = rest.
Proof.
  split.
  - destruct (available_guards_read Sample.regular_header Sample.message
                Sample.started) as [H _]; [vm_compute; lia|].
    apply H. reflexivity.
  - destruct (available_guards_read Sample.regular_header Sample.message
                Sample.with_both) as [_ H]; [vm_compute; lia|].
    apply H. vm_compute. discriminate.
Defined.
